(** * Nollup: plugin lifecycle and ES-module rewriting

    A shallow embedding of [lib/impl/PluginLifecycle.js] (hook dispatch and
    the lifecycle facade built on it) and of [lib/__es2cjs.js] (the rewrite
    of import/export declarations into indexed requires), with the
    properties of the specification stated against it.

    Conventions of the embedding.
    - JavaScript values are first-order data ([JS.value]); numbers are the
      integers among the JS numbers.
    - Effectful code lives in the monad [M]: a state transformer over
      [world] whose result is either a value or a raised exception.  An
      [await] of a settled promise is its resolved value or the raise of
      its rejection, so [async] functions are [M] computations too.
    - A hook body is an atomic transformer of what a plugin reaches through
      its context: the per-module metadata and the state outside the
      container.  The invocation trace is instrumentation kept by the
      dispatch functions; hook bodies have no access to it. *)

From Stdlib Require Import ZArith.
From stdpp Require Import gmap strings list pretty.

Set Warnings "-register-all".
Set Default Proof Using "Type".

(* ================================================================== *)
(** * JavaScript values *)
(* ================================================================== *)

Module JS.

Inductive value : Type :=
| VUndef
| VNull
| VBool (b : bool)
| VNum (n : Z)
| VStr (s : string)
| VObj (props : list (string * value))
| VArr (elems : list value).

(** Own properties of a plain object, in insertion order. *)
Definition obj : Type := list (string * value).

(** [hr === null || hr === undefined] *)
Definition is_absent (v : value) : bool :=
  match v with
  | VUndef | VNull => true
  | _ => false
  end.

(** ToBoolean *)
Definition truthy (v : value) : bool :=
  match v with
  | VUndef | VNull => false
  | VBool b => b
  | VNum n => negb (n =? 0)%Z
  | VStr s => negb (String.eqb s EmptyString)
  | VObj _ | VArr _ => true
  end.

(** [typeof v] *)
Definition typeof (v : value) : string :=
  match v with
  | VUndef => "undefined"
  | VNull | VObj _ | VArr _ => "object"
  | VBool _ => "boolean"
  | VNum _ => "number"
  | VStr _ => "string"
  end.

(** [l.join(sep)] on strings already converted. *)
Fixpoint join_with (sep : string) (l : list string) : string :=
  match l with
  | [] => EmptyString
  | [x] => x
  | x :: r => x +:+ sep +:+ join_with sep r
  end.

(** ToString.  Inside an array, [null] and [undefined] print as the empty
    string (Array.prototype.join).  A number prints as its decimal digits,
    which is what JS prints for the integers below 1e21 in size. *)
Fixpoint ToString (v : value) : string :=
  match v with
  | VUndef => "undefined"
  | VNull => "null"
  | VBool true => "true"
  | VBool false => "false"
  | VNum n => pretty n
  | VStr s => s
  | VObj _ => "[object Object]"
  | VArr l =>
      join_with ","
        (map (fun x => match x with
                       | VUndef | VNull => EmptyString
                       | _ => ToString x
                       end) l)
  end.

(** The string an array element contributes to [join]. *)
Definition join_elem (x : value) : string :=
  if is_absent x then EmptyString else ToString x.

(** [arr.join(sep)] *)
Definition array_join (sep : string) (arr : list value) : string :=
  join_with sep (map join_elem arr).

(** First binding of [k] among own properties. *)
Fixpoint lookup_prop (k : string) (ps : obj) : value :=
  match ps with
  | [] => VUndef
  | (k', v) :: r => if String.eqb k' k then v else lookup_prop k r
  end.

(** [o[k] = v] on a plain object: overwrite in place, or add at the end. *)
Fixpoint set_prop (k : string) (v : value) (ps : obj) : obj :=
  match ps with
  | [] => [(k, v)]
  | (k', v') :: r =>
      if String.eqb k' k then (k, v) :: r else (k', v') :: set_prop k v r
  end.

(** [delete o[k]] *)
Fixpoint delete_prop (k : string) (ps : obj) : obj :=
  match ps with
  | [] => []
  | (k', v) :: r =>
      if String.eqb k' k then delete_prop k r else (k', v) :: delete_prop k r
  end.

(** [v[k]] for a named (non-index) property [k] of a value other than
    [null] and [undefined]: an own property, or [length].  The names read
    with it ([code], [map], [mappings], [meta], [id], [external],
    [fileName], [syntheticNamedExports], [relativePath] and the reference
    ids) are names that no prototype defines. *)
Definition get (v : value) (k : string) : value :=
  match v with
  | VObj ps => lookup_prop k ps
  | VArr l => if String.eqb k "length" then VNum (Z.of_nat (length l)) else VUndef
  | VStr s => if String.eqb k "length" then VNum (Z.of_nat (String.length s)) else VUndef
  | _ => VUndef
  end.

Fixpoint chars (s : string) : list value :=
  match s with
  | EmptyString => []
  | String a r => VStr (String a EmptyString) :: chars r
  end.

(** The (key, value) pairs a [for (k in v)] loop reads as [v[k]]. *)
Definition own_entries (v : value) : list (string * value) :=
  match v with
  | VObj ps => map (fun kv => (fst kv, lookup_prop (fst kv) ps)) ps
  | VArr l => imap (fun i x => (pretty i, x)) l
  | VStr s => imap (fun i x => (pretty i, x)) (chars s)
  | _ => []
  end.

(** An [Error]-like object. *)
Definition error_obj (name message : string) : value :=
  VObj [("name", VStr name); ("message", VStr message)].

End JS.
Export JS.

(* ================================================================== *)
(** * Effects: the state of a build and the monad of lifecycle code *)
(* ================================================================== *)

(** What running a computation leaves: a result or a raised exception. *)
Inductive outcome (A : Type) : Type :=
| Ok (a : A)
| Throw (e : value).
Arguments Ok {A} a.
Arguments Throw {A} e.

(** How a promise settles. *)
Inductive settled : Type :=
| Resolved (v : value)
| Rejected (e : value).

(** What calling a hook function produces. *)
Inductive hook_result : Type :=
| Returns (v : value)
| Raises (e : value)
| Promised (s : settled).

(** Instrumentation: the calls made to plugins and to collaborators. *)
Inductive event : Type :=
| EvInvoke (plugin hook : string) (args : list value)
| EvCombine (chain : list value) (originalCode id : value)
| EvReadFile (path : string).

(** [container.__currentMapChain] is either [null] or the very array that
    the in-flight [transform] call holds in its local [mapChain]. *)
Inductive chain_ref : Type := LocalMapChain.

Section Lifecycle.

(** The state outside the container that hook bodies may read and write. *)
Context {X : Type}.

Record world : Type := mkWorld {
  __meta : gmap string obj;
  __currentMapChain : option chain_ref;
  __currentOriginalCode : value;
  __currentModuleId : value;
  (* mutable locals of the in-flight [transform] call, captured by its
     closures *)
  mapChain : list value;
  syntheticNamedExports : value;
  outside : X;
  trace : list event
}.

Definition M (A : Type) : Type := world -> outcome A * world.

Definition ret {A} (a : A) : M A := fun w => (Ok a, w).
Definition throw {A} (e : value) : M A := fun w => (Throw e, w).
Definition bind {A B} (m : M A) (k : A -> M B) : M B :=
  fun w =>
    match m w with
    | (Ok a, w') => k a w'
    | (Throw e, w') => (Throw e, w')
    end.

(** Running an [async] call without awaiting it: the promise it yields,
    with how it settles. *)
Definition spawn {A} (m : M A) : M (outcome A) :=
  fun w => let '(r, w') := m w in (Ok r, w').

Definition emit (e : event) : M unit :=
  fun w =>
    (Ok tt, mkWorld (__meta w) (__currentMapChain w) (__currentOriginalCode w)
              (__currentModuleId w) (mapChain w) (syntheticNamedExports w)
              (outside w) (trace w ++ [e])).

Definition get_meta : M (gmap string obj) := fun w => (Ok (__meta w), w).

Definition put_meta (m : gmap string obj) : M unit :=
  fun w =>
    (Ok tt, mkWorld m (__currentMapChain w) (__currentOriginalCode w)
              (__currentModuleId w) (mapChain w) (syntheticNamedExports w)
              (outside w) (trace w)).

Definition set_current (c : option chain_ref) (code id : value) : M unit :=
  fun w =>
    (Ok tt, mkWorld (__meta w) c code id (mapChain w) (syntheticNamedExports w)
              (outside w) (trace w)).

Definition get_mapChain : M (list value) := fun w => (Ok (mapChain w), w).

Definition put_mapChain (l : list value) : M unit :=
  fun w =>
    (Ok tt, mkWorld (__meta w) (__currentMapChain w) (__currentOriginalCode w)
              (__currentModuleId w) l (syntheticNamedExports w)
              (outside w) (trace w)).

Definition get_sne : M value := fun w => (Ok (syntheticNamedExports w), w).

(** A call that only reads the outside state. *)
Definition reading {A} (f : X -> outcome A) : M A :=
  fun w => (f (outside w), w).

(** A call that acts on the outside state only. *)
Definition on_outside {A} (f : X -> outcome A * X) : M A :=
  fun w =>
    let '(r, x') := f (outside w) in
    (r, mkWorld (__meta w) (__currentMapChain w) (__currentOriginalCode w)
          (__currentModuleId w) (mapChain w) (syntheticNamedExports w)
          x' (trace w)).

(** A call that depends on its arguments alone. *)
Definition computing {A} (r : outcome A) : M A := fun w => (r, w).

Definition put_sne (v : value) : M unit :=
  fun w =>
    (Ok tt, mkWorld (__meta w) (__currentMapChain w) (__currentOriginalCode w)
              (__currentModuleId w) (mapChain w) v (outside w) (trace w)).

End Lifecycle.

Arguments world X : clear implicits.
Arguments M X A : clear implicits.

Notation "x <~ c1 ;; c2" := (bind c1 (fun x => c2))
  (at level 100, c1 at next level, right associativity).
Notation "c1 ;;; c2" := (bind c1 (fun _ => c2))
  (at level 100, right associativity).

(* ================================================================== *)
(** * Plugins and the container *)
(* ================================================================== *)

Section Plugins.

Context {X : Type}.

(** A hook body: from the call's arguments, an atomic step on the metadata
    and the outside state. *)
Definition hook_fn : Type :=
  list value -> gmap string obj * X -> hook_result * (gmap string obj * X).

(** [plugin.execute[hook]] *)
Inductive hook_entry : Type :=
| EMissing
| ELit (v : value)
| EFun (f : hook_fn).

(** NollupInternalPluginWrapper.  [name] labels the plugin in the trace;
    [wrapAsync] is [plugin.error.wrapAsync] followed by the [await]; the
    receiver [plugin.context] is part of the closure [hook_fn]. *)
Record Plugin : Type := mkPlugin {
  name : string;
  execute : string -> hook_entry;
  wrapAsync : settled -> outcome value
}.

(** [config.external] *)
Inductive external_option : Type :=
| ExtArray (names : list value)
| ExtFunction (f : value -> value -> value -> X -> outcome value * X)
| ExtOther (v : value).

(** RollupConfigContainer, as far as the lifecycle reads it. *)
Record Config : Type := mkConfig {
  external : external_option
}.

Record PluginContainer : Type := mkContainer {
  __plugins : list Plugin;
  __config : option Config
}.

Definition entry_typeof (h : hook_entry) : string :=
  match h with
  | EMissing => "undefined"
  | ELit v => typeof v
  | EFun _ => "function"
  end.

Definition entry_truthy (h : hook_entry) : bool :=
  match h with
  | EMissing => false
  | ELit v => truthy v
  | EFun _ => true
  end.

Definition entry_value (h : hook_entry) : value :=
  match h with
  | ELit v => v
  | _ => VUndef
  end.

(** What the caller of a hook gets from what the hook function produced:
    a promise is awaited through the plugin's error adapter. *)
Definition awaited (plugin : Plugin) (r : hook_result) : outcome value :=
  match r with
  | Returns v => Ok v
  | Raises e => Throw e
  | Promised s => wrapAsync plugin s
  end.

(** [plugin.execute[hook].apply(plugin.context, args)], with the [await]
    of a promise result. *)
Definition apply_hook (plugin : Plugin) (hook : string) (h : hook_entry)
    (args : list value) : M X value :=
  match h with
  | EFun f =>
      emit (EvInvoke (name plugin) hook args) ;;;
      fun w =>
        let '(r, (m', x')) := f args (__meta w, outside w) in
        (awaited plugin r,
         mkWorld m' (__currentMapChain w) (__currentOriginalCode w)
           (__currentModuleId w) (mapChain w) (syntheticNamedExports w)
           x' (trace w))
  | _ =>
      throw (error_obj "TypeError"
               "plugin.execute[hook].apply is not a function")
  end.

Definition _callAsyncHook (plugin : Plugin) (hook : string)
    (args : list value) : M X value :=
  let h := execute plugin hook in
  if String.eqb (entry_typeof h) "string" then ret (entry_value h)
  else if entry_truthy h then apply_hook plugin hook h args
  else ret VUndef.

(* ------------------------------------------------------------------ *)
(** ** The calling conventions *)

(** The loop of [callAsyncFirstHook] from index [i], with [n] iterations
    left before [i] reaches [container.__plugins.length]. *)
Fixpoint callAsyncFirstHook_loop (plugins : list Plugin) (hook : string)
    (args : list value) (n i : nat) : M X value :=
  match n with
  | O => ret VUndef
  | S n' =>
      match plugins !! i with
      | None => ret VUndef
      | Some p =>
          hr <~ _callAsyncHook p hook args ;;
          if negb (is_absent hr) then ret hr
          else callAsyncFirstHook_loop plugins hook args n' (S i)
      end
  end.

Definition callAsyncFirstHook (container : PluginContainer) (hook : string)
    (args : list value) : M X value :=
  callAsyncFirstHook_loop (__plugins container) hook args
    (length (__plugins container)) 0.

Fixpoint callAsyncSequentialHook_loop {A : Type} (plugins : list Plugin)
    (hook : string) (toArgs : A -> M X (list value))
    (fromResult : value -> A -> M X A) (n i : nat) (output : A) : M X A :=
  match n with
  | O => ret output
  | S n' =>
      match plugins !! i with
      | None => ret output
      | Some p =>
          args <~ toArgs output ;;
          hr <~ _callAsyncHook p hook args ;;
          output' <~ (if negb (is_absent hr) then fromResult hr output
                      else ret output) ;;
          callAsyncSequentialHook_loop plugins hook toArgs fromResult
            n' (S i) output'
      end
  end.

Definition callAsyncSequentialHook {A : Type} (container : PluginContainer)
    (hook : string) (toArgs : A -> M X (list value))
    (fromResult : value -> A -> M X A) (start : A) : M X A :=
  callAsyncSequentialHook_loop (__plugins container) hook toArgs fromResult
    (length (__plugins container)) 0 start.

(** The loop of [callAsyncParallelHook]: every call is started, none is
    awaited; [hookResults] collects the promises. *)
Fixpoint callAsyncParallelHook_loop (plugins : list Plugin) (hook : string)
    (args : list value) (n i : nat) (hookResults : list (outcome value))
    : M X (list (outcome value)) :=
  match n with
  | O => ret hookResults
  | S n' =>
      match plugins !! i with
      | None => ret hookResults
      | Some p =>
          pr <~ spawn (_callAsyncHook p hook args) ;;
          callAsyncParallelHook_loop plugins hook args n' (S i)
            (hookResults ++ [pr])
      end
  end.

(** [await Promise.all(promises)]: the array of the results, or the first
    rejection.  Hook bodies are atomic here, so the promises settle in the
    order in which their calls were started and the first rejection is
    that of the first plugin that fails; of hooks that settle later than
    they are called, [Promise.all] gives the rejection that settles
    first. *)
Fixpoint promise_all (promises : list (outcome value))
    : outcome (list value) :=
  match promises with
  | [] => Ok []
  | Throw e :: _ => Throw e
  | Ok v :: r =>
      match promise_all r with
      | Ok vs => Ok (v :: vs)
      | Throw e => Throw e
      end
  end.

Definition callAsyncParallelHook (container : PluginContainer)
    (hook : string) (args : list value) : M X (list value) :=
  hookResults <~ callAsyncParallelHook_loop (__plugins container) hook args
                   (length (__plugins container)) 0 [] ;;
  fun w => (promise_all hookResults, w).

End Plugins.

Arguments hook_fn X : clear implicits.
Arguments hook_entry X : clear implicits.
Arguments Plugin X : clear implicits.
Arguments external_option X : clear implicits.
Arguments Config X : clear implicits.
Arguments PluginContainer X : clear implicits.

(* ================================================================== *)
(** * The lifecycle facade *)
(* ================================================================== *)

(** The line feed of ['\n'] and the double quote. *)
Definition LF : string := String (Ascii.ascii_of_nat 10) EmptyString.
Definition DQ : string := String (Ascii.ascii_of_nat 34) EmptyString.

Section Facade.

Context {X : Type}.

(** Collaborators outside [PluginLifecycle.js]: node's [path] and [fs],
    [process.cwd()], [resolvePath] of [./utils] and
    [combineSourceMapChainFast] of [./PluginUtils]. *)
Variable path_isAbsolute : string -> bool.
Variable path_normalize : string -> string.
Variable path_resolve : string -> string -> string.
Variable process_cwd : string.
Variable resolvePath : string -> value -> X -> outcome string.
Variable fs_readFileSync : string -> X -> outcome string.
Variable combineSourceMapChainFast :
  list value -> value -> value -> outcome value.

(** [v.k]: a property read raises on [null] and [undefined]. *)
Definition member (v : value) (k : string) : M X value :=
  if is_absent v then
    throw (error_obj "TypeError" ("Cannot read properties of " +:+ ToString v))
  else ret (get v k).

(** [delete v.k] *)
Definition delete_member (v : value) (k : string) : value :=
  match v with
  | VObj ps => VObj (delete_prop k ps)
  | _ => v
  end.

(** [for (let prop in meta) fileMeta[prop] = meta[prop]] *)
Definition copy_props (meta : value) (fileMeta : obj) : obj :=
  fold_left (fun fm kv => set_prop (fst kv) (snd kv) fm)
    (own_entries meta) fileMeta.

(** [container.__meta] once [meta] is copied into the entry of
    [filePath], created empty when there is none. *)
Definition merged_meta (filePath meta : value) (store : gmap string obj)
    : gmap string obj :=
  let key := ToString filePath in
  let fileMeta := match store !! key with
                  | Some fm => fm
                  | None => []
                  end in
  <[key := copy_props meta fileMeta]> store.

Definition handleMetaProperty (container : PluginContainer X)
    (filePath : value) (meta : value) : M X unit :=
  if truthy meta then
    store <~ get_meta ;;
    put_meta (merged_meta filePath meta store)
  else ret tt.

(** [v === name] for a string [name] *)
Definition is_string (name : string) (v : value) : bool :=
  match v with
  | VStr s => String.eqb s name
  | _ => false
  end.

(** [arr.indexOf(name)] for a string [name], counting from [i]. *)
Fixpoint indexOf_from (name : string) (arr : list value) (i : Z) : Z :=
  match arr with
  | [] => (-1)%Z
  | v :: r => if is_string name v then i else indexOf_from name r (i + 1)%Z
  end.

Definition indexOf (arr : list value) (name : string) : Z :=
  indexOf_from name arr 0%Z.

Definition isExternal (config : option (Config X)) (name : string)
    : M X value :=
  match config with
  | Some cfg =>
      match external cfg with
      | ExtArray names => ret (VBool (-1 <? indexOf names name)%Z)
      | ExtFunction f => on_outside (f (VStr name) VUndef VUndef)
      | ExtOther _ => ret (VBool false)
      end
  | None => ret (VBool false)
  end.

(** [hr === false] *)
Definition is_false (v : value) : bool :=
  match v with
  | VBool false => true
  | _ => false
  end.

Definition is_undefined (v : value) : bool :=
  match v with
  | VUndef => true
  | _ => false
  end.

Definition is_null (v : value) : bool :=
  match v with
  | VNull => true
  | _ => false
  end.

Definition resolveId (container : PluginContainer X) (id : string)
    (parentFilePath : value) : M X value :=
  hr <~ callAsyncFirstHook container "resolveId" [VStr id; parentFilePath] ;;
  excluded <~ (if is_false hr then ret true
               else e <~ isExternal (__config container) id ;;
                    ret (truthy e)) ;;
  if excluded : bool then
    ret (VObj [("id", VStr id); ("external", VBool true)])
  else
    let hr :=
      match hr with
      | VStr s =>
          VObj [("id", VStr (if path_isAbsolute s then path_normalize s
                             else s));
                ("external", VBool false)]
      | _ => hr
      end in
    hr <~ (if negb (truthy hr) then
             let parent := if truthy parentFilePath then parentFilePath
                           else VStr (path_resolve process_cwd "__entry") in
             p <~ reading (resolvePath id parent) ;;
             ret (VObj [("id", VStr (path_normalize p));
                        ("external", VBool false)])
           else ret hr) ;;
    hid <~ member hr "id" ;;
    hmeta <~ member hr "meta" ;;
    handleMetaProperty container hid hmeta ;;;
    ret hr.

Definition load (container : PluginContainer X) (filePath : string)
    (parentFilePath : value) : M X value :=
  hr <~ callAsyncFirstHook container "load" [VStr filePath; parentFilePath] ;;
  if String.eqb (typeof hr) "string" then ret (VObj [("code", hr)])
  else
    has_code <~ (if String.eqb (typeof hr) "object" then
                   c <~ member hr "code" ;; ret (truthy c)
                 else ret false) ;;
    if has_code : bool then
      hmeta <~ member hr "meta" ;;
      handleMetaProperty container (VStr filePath) hmeta ;;;
      ret hr
    else
      no_code <~ (if negb (truthy hr) then ret true
                  else c <~ member hr "code" ;; ret (negb (truthy c))) ;;
      if no_code : bool then
        let filePath := if path_isAbsolute filePath then filePath
                        else path_resolve process_cwd filePath in
        emit (EvReadFile filePath) ;;;
        code <~ reading (fs_readFileSync filePath) ;;
        ret (VObj [("code", VStr code)])
      else ret VUndef.

(** The projection handed to [callAsyncSequentialHook] by [transform]. *)
Definition transform_toArgs (input : value) : M X (list value) :=
  c <~ member input "code" ;;
  i <~ member input "id" ;;
  ret [c; i].

(** The merge function handed to [callAsyncSequentialHook] by [transform]. *)
Definition transform_fromResult (container : PluginContainer X) (id : string)
    (result input : value) : M X value :=
  let result := if String.eqb (typeof result) "string"
                then VObj [("code", result)] else result in
  rmap <~ member result "map" ;;
  unmapped <~ (if negb (is_null rmap) && String.eqb (typeof rmap) "object"
               then mp <~ member rmap "mappings" ;; ret (negb (truthy mp))
               else ret false) ;;
  let result := if unmapped : bool then delete_member result "map"
                else result in
  rmeta <~ member result "meta" ;;
  handleMetaProperty container (VStr id) rmeta ;;;
  rsne <~ member result "syntheticNamedExports" ;;
  sne <~ get_sne ;;
  (if truthy rsne && is_undefined sne then put_sne rsne else ret tt) ;;;
  rcode <~ member result "code" ;;
  if negb (is_undefined rcode) then
    rmap <~ member result "map" ;;
    chain <~ get_mapChain ;;
    put_mapChain (chain ++ [VObj [("code", rcode); ("map", rmap)]]) ;;;
    ret (VObj [("code", rcode); ("id", VStr id); ("map", rmap)])
  else ret input.

Definition transform (container : PluginContainer X) (code id : string)
    : M X value :=
  let originalCode := code in
  put_mapChain [] ;;;
  put_sne VUndef ;;;
  set_current (Some LocalMapChain) (VStr originalCode) (VStr id) ;;;
  hr <~ callAsyncSequentialHook container "transform" transform_toArgs
          (transform_fromResult container id)
          (VObj [("code", VStr code); ("id", VStr id); ("map", VNull);
                 ("syntheticNamedExports", VBool false)]) ;;
  chain <~ get_mapChain ;;
  emit (EvCombine chain (VStr originalCode) (VStr id)) ;;;
  map <~ computing
           (combineSourceMapChainFast chain (VStr originalCode) (VStr id)) ;;
  set_current None VNull VNull ;;;
  hcode <~ member hr "code" ;;
  sne <~ get_sne ;;
  ret (VObj [("code", hcode); ("map", map); ("syntheticNamedExports", sne)]).

(** [banner], [footer], [intro] and [outro] differ in the hook name only. *)
Definition joined_hook (container : PluginContainer X) (hook : string)
    : M X value :=
  results <~ callAsyncParallelHook container hook [] ;;
  ret (VStr (array_join LF results)).

Definition banner (container : PluginContainer X) : M X value :=
  joined_hook container "banner".
Definition footer (container : PluginContainer X) : M X value :=
  joined_hook container "footer".
Definition intro (container : PluginContainer X) : M X value :=
  joined_hook container "intro".
Definition outro (container : PluginContainer X) : M X value :=
  joined_hook container "outro".

End Facade.

(* ------------------------------------------------------------------ *)
(** ** The keyed view of the bundle given to [generateBundle] hooks *)

Module BundleView.

(** [arr.find(p)], where evaluating [p] may raise. *)
Fixpoint find (p : value -> outcome bool) (arr : list value)
    : outcome value :=
  match arr with
  | [] => Ok VUndef
  | e :: r =>
      match p e with
      | Ok true => Ok e
      | Ok false => find p r
      | Throw x => Throw x
      end
  end.

(** [e.fileName === prop] *)
Definition has_fileName (prop : string) (e : value) : outcome bool :=
  if is_absent e then
    Throw (error_obj "TypeError" ("Cannot read properties of " +:+ ToString e))
  else
    Ok (match get e "fileName" with
        | VStr s => String.eqb s prop
        | _ => false
        end).

(** The [get] trap: [bundleObj[prop]]. *)
Definition proxy_get (bundle : list value) (prop : string) : outcome value :=
  find (has_fileName prop) bundle.

(** The [set] trap: [bundleObj[prop] = v] leaves this bundle (and
    succeeds). *)
Definition proxy_set (bundle : list value) (prop : string) (v : value)
    : list value :=
  bundle ++ [v].

(** The body of the [ownKeys] trap (and of the obsolete [enumerate]
    trap): [bundle.map(e => e.fileName)]. *)
Fixpoint proxy_ownKeys (bundle : list value) : outcome (list value) :=
  match bundle with
  | [] => Ok []
  | e :: r =>
      if is_absent e then
        Throw (error_obj "TypeError"
                 ("Cannot read properties of " +:+ ToString e))
      else
        match proxy_ownKeys r with
        | Ok ks => Ok (get e "fileName" :: ks)
        | Throw x => Throw x
        end
  end.

(** Two keys that are the same string. *)
Definition same_key (a b : value) : bool :=
  match a, b with
  | VStr x, VStr y => String.eqb x y
  | _, _ => false
  end.

Definition is_key (a : value) : bool :=
  match a with
  | VStr _ => true
  | _ => false
  end.

(** What the Proxy accepts from its [ownKeys] trap: strings, none of them
    twice. *)
Fixpoint valid_keys (ks : list value) : bool :=
  match ks with
  | [] => true
  | k :: r => is_key k && negb (existsb (same_key k) r) && valid_keys r
  end.

(** The own keys of [bundleObj], as [Object.keys], [for (k in bundleObj)]
    or [Reflect.ownKeys] get them: the result of the trap, which the
    Proxy checks; it raises a TypeError on a key that is not a string and
    on a duplicate.  (The target [{}] has no key of its own and the
    [getOwnPropertyDescriptor] trap calls every key enumerable.) *)
Definition view_ownKeys (bundle : list value) : outcome (list value) :=
  match proxy_ownKeys bundle with
  | Ok ks =>
      if valid_keys ks then Ok ks
      else Throw (error_obj "TypeError"
                    "'ownKeys' on proxy: trap returned an invalid key list")
  | Throw x => Throw x
  end.

(** What the body of a [generateBundle] hook does with [bundleObj]: it
    reads keys, assigns to keys and enumerates the keys, going on with
    what each operation gave it, until it finishes. *)
Inductive view_program : Type :=
| Finish (r : hook_result)
| ReadKey (prop : string) (k : outcome value -> view_program)
| Assign (prop : string) (v : value) (k : view_program)
| OwnKeys (k : outcome (list value) -> view_program).

(** Running such a body against the bundle that the view stands for. *)
Fixpoint run_view (p : view_program) (bundle : list value)
    : hook_result * list value :=
  match p with
  | Finish r => (r, bundle)
  | ReadKey prop k => run_view (k (proxy_get bundle prop)) bundle
  | Assign prop v k => run_view k (proxy_set bundle prop v)
  | OwnKeys k => run_view (k (view_ownKeys bundle)) bundle
  end.

(** The records a body assigns, in the order of the assignments. *)
Fixpoint assigned (p : view_program) (bundle : list value) : list value :=
  match p with
  | Finish _ => []
  | ReadKey prop k => assigned (k (proxy_get bundle prop)) bundle
  | Assign prop v k => v :: assigned k (proxy_set bundle prop v)
  | OwnKeys k => assigned (k (view_ownKeys bundle)) bundle
  end.

End BundleView.

(* ================================================================== *)
(** * The syntax transform of [__es2cjs.js] *)
(* ================================================================== *)

Module Es2cjs.

(** ** The part of the ESTree shape that the transform reads *)

Inductive node_type : Type :=
| ImportDeclaration
| ExportDefaultDeclaration
| ExportNamedDeclaration
| ExportAllDeclaration
| OtherStatement.

(** [node.specifiers[i]], with [local.name], [imported.name] and
    [exported.name]. *)
Inductive specifier : Type :=
| ImportDefaultSpecifier (local : string)
| ImportSpecifier (local imported : string)
| ImportNamespaceSpecifier (local : string)
| ExportSpecifier (local exported : string).

(** [node.declaration]: its span, [id.name] when it has an [id], and the
    [id.name] of each declarator when it has [declarations] (a pattern has
    no [name]). *)
Record declaration : Type := mkDeclaration {
  d_start : nat;
  d_end : nat;
  d_id : option string;
  d_declarations : option (list (option string))
}.

Record node : Type := mkNode {
  n_type : node_type;
  n_start : nat;
  n_end : nat;
  n_source : option string;            (* node.source.value *)
  n_specifiers : option (list specifier);
  n_declaration : option declaration
}.

(** What [acorn.parse] does with a source text: the top-level statements
    [ast.body], or a raised error [e] with [e.name], [e.message] and
    [e.loc] (ESTree positions: [line] counts from 1, [column] from 0). *)
Inductive parse_result : Type :=
| Parsed (body : list node)
| ParseError (name message : string) (line column : nat).

(** [context.options.external] *)
Inductive external_option : Type :=
| ExtArray (names : list value)
| ExtFunction (f : string -> outcome value)
| ExtOther.

(** [context.options]: [external] and [output.globals]. *)
Record Options : Type := mkOptions {
  external : external_option;
  output_globals : option (list (string * string))
}.

Definition obind {A B} (m : outcome A) (k : A -> outcome B) : outcome B :=
  match m with
  | Ok a => k a
  | Throw e => Throw e
  end.

Notation "'try' x := c1 'in' c2" := (obind c1 (fun x => c2))
  (at level 100, x pattern, c1 at next level, right associativity).

(** ** String helpers of the JS runtime *)

(** [s.split('\n')] *)
Fixpoint split_lines (s : string) : list string :=
  match s with
  | EmptyString => [EmptyString]
  | String a r =>
      if Ascii.eqb a (Ascii.ascii_of_nat 10) then EmptyString :: split_lines r
      else match split_lines r with
           | [] => [String a EmptyString]
           | l :: ls => String a l :: ls
           end
  end.

Fixpoint spaces (n : nat) : string :=
  match n with
  | O => EmptyString
  | S n' => String (Ascii.ascii_of_nat 32) (spaces n')
  end.

(** [s.padStart(n)] *)
Definition padStart (s : string) (n : nat) : string :=
  spaces (n - String.length s) +:+ s.

(** ['' + v] for an array element that may be missing. *)
Definition str_or_undefined (o : option string) : string :=
  match o with
  | Some s => s
  | None => "undefined"
  end.

Section Transform.

(** The collaborators: the parser and the edit buffer (magic-string). *)
Variable acorn_parse : string -> parse_result.
Variable MagicString : Type.
Variable MagicString_new : string -> MagicString.
Variable overwrite : MagicString -> nat -> nat -> string -> MagicString.
Variable appendRight : MagicString -> nat -> string -> MagicString.
Variable toString : MagicString -> string.

Record Response : Type := mkResponse {
  output : MagicString;
  dependencies : list string
}.

Record Result : Type := mkResult {
  r_output : string;
  r_dependencies : list string
}.

Definition is_string (name : string) (v : value) : bool :=
  match v with
  | VStr s => String.eqb s name
  | _ => false
  end.

Definition isExternal (context : option Options) (name : string)
    : outcome bool :=
  match context with
  | Some options =>
      match external options with
      | ExtArray names => Ok (existsb (is_string name) names)
      | ExtFunction f => try v := f name in Ok (truthy v)
      | ExtOther => Ok false
      end
  | None => Ok false
  end.

(** [node.source.value] *)
Definition source_value (n : node) : outcome string :=
  match n_source n with
  | Some s => Ok s
  | None => Throw (error_obj "TypeError" "Cannot read properties of null")
  end.

Definition nonempty_specifiers (n : node) : bool :=
  match n_specifiers n with
  | Some (_ :: _) => true
  | _ => false
  end.

Definition specifiers_of (n : node) : list specifier :=
  match n_specifiers n with
  | Some l => l
  | None => []
  end.

Definition is_ExportAll (n : node) : bool :=
  match n_type n with
  | ExportAllDeclaration => true
  | _ => false
  end.

(** [local.name] of the first [ImportDefaultSpecifier]. *)
Fixpoint default_local (l : list specifier) : option string :=
  match l with
  | [] => None
  | ImportDefaultSpecifier local :: _ => Some local
  | _ :: r => default_local r
  end.

Fixpoint assoc (k : string) (l : list (string * string)) : option string :=
  match l with
  | [] => None
  | (k', v) :: r => if String.eqb k' k then Some v else assoc k r
  end.

(** What a name that [Object.prototype] defines reads as, once turned
    into text by a string concatenation: a plain object such as
    [globalConf] inherits these names. *)
Definition Object_prototype (name : string) : option string :=
  if String.eqb name "constructor" then
    Some "function Object() { [native code] }"
  else if String.eqb name "__proto__" then Some "[object Object]"
  else if existsb (String.eqb name)
            [ "__defineGetter__"; "__defineSetter__"; "hasOwnProperty";
              "__lookupGetter__"; "__lookupSetter__"; "isPrototypeOf";
              "propertyIsEnumerable"; "toString"; "valueOf";
              "toLocaleString" ]
  then Some ("function " +:+ name +:+ "() { [native code] }")
  else None.

(** [globalConf[name]]: an own entry, else what is inherited. *)
Definition global_lookup (name : string) (globalConf : list (string * string))
    : option string :=
  match assoc name globalConf with
  | Some g => Some g
  | None => Object_prototype name
  end.

(** [a || b] on strings that may be missing. *)
Definition or_else (a : option string) (b : string) : string :=
  match a with
  | Some s => if String.eqb s EmptyString then b else s
  | None => b
  end.

Definition external_binding (importAlias : string) (s : specifier) : string :=
  match s with
  | ImportDefaultSpecifier local =>
      "var " +:+ local +:+ " = " +:+ importAlias +:+ " && " +:+ importAlias
      +:+ ".hasOwnProperty(" +:+ DQ +:+ "default" +:+ DQ +:+ ")? " +:+ importAlias +:+ ".default : "
      +:+ importAlias +:+ ";"
  | ImportSpecifier local imported =>
      "var " +:+ local +:+ " = " +:+ importAlias +:+ "." +:+ imported +:+ ";"
  | ImportNamespaceSpecifier local =>
      "var " +:+ local +:+ " = " +:+ importAlias
  | ExportSpecifier _ _ => EmptyString
  end.

Definition resolveExternalImport (context : option Options)
    (response : Response) (n : node)
    : outcome (string * string * Response) :=
  match context with
  | None => Throw (error_obj "TypeError" "Cannot read properties of null")
  | Some options =>
      let globalConf := match output_globals options with
                        | Some g => g
                        | None => []
                        end in
      try head :=
        (if nonempty_specifiers n || is_ExportAll n then
           try src := source_value n in
           let globalName :=
             or_else (global_lookup src globalConf)
               (or_else (default_local (specifiers_of n)) src) in
           let importAlias := "_e" +:+ globalName in
           Ok ("var " +:+ importAlias +:+ " = window." +:+ globalName +:+ ";",
               importAlias)
         else Ok (EmptyString, EmptyString)) in
      let '(transpiled, importAlias) := head in
      Ok (fold_left (fun t s => t +:+ external_binding importAlias s)
            (specifiers_of n) transpiled,
          importAlias, response)
  end.

Definition internal_binding (importAlias : string) (s : specifier) : string :=
  match s with
  | ImportDefaultSpecifier local =>
      "var " +:+ local +:+ " = " +:+ importAlias +:+ ".default;"
  | ImportSpecifier local imported =>
      "var " +:+ local +:+ " = " +:+ importAlias +:+ "." +:+ imported +:+ ";"
  | ImportNamespaceSpecifier local =>
      "var " +:+ local +:+ " = " +:+ importAlias +:+ ";"
  | ExportSpecifier _ _ => EmptyString
  end.

Definition resolveInternalImport (context : option Options)
    (response : Response) (n : node)
    : outcome (string * string * Response) :=
  let importIndex := length (dependencies response) in
  let importAlias := "_i" +:+ pretty importIndex in
  let transpiled := "var " +:+ importAlias +:+ " = require(__nollup__"
                    +:+ pretty importIndex +:+ ");" in
  try src := source_value n in
  let response := mkResponse (output response)
                    (dependencies response ++ [src]) in
  Ok (fold_left (fun t s => t +:+ internal_binding importAlias s)
        (specifiers_of n) transpiled,
      importAlias, response).

Definition resolveImport (context : option Options) (response : Response)
    (n : node) : outcome (string * string * Response) :=
  try src := source_value n in
  try ext := isExternal context src in
  if ext : bool then resolveExternalImport context response n
  else resolveInternalImport context response n.

Definition with_output (response : Response) (o : MagicString) : Response :=
  mkResponse o (dependencies response).

Definition export_assignment (importAlias : option string) (s : specifier)
    : string :=
  match s with
  | ExportSpecifier local exported =>
      match importAlias with
      | Some a => "module.exports." +:+ exported +:+ " = " +:+ a +:+ "."
                  +:+ local +:+ ";"
      | None => "module.exports." +:+ exported +:+ " = " +:+ local +:+ ";"
      end
  | _ => EmptyString
  end.

(** The body of the loop over [ast.body] for one statement. *)
Definition rewrite_node (context : option Options) (response : Response)
    (n : node) : outcome Response :=
  match n_type n with
  | ImportDeclaration =>
      try r := resolveImport context response n in
      let '(transpiled, _, response) := r in
      Ok (with_output response
            (overwrite (output response) (n_start n) (n_end n) transpiled))
  | ExportDefaultDeclaration =>
      match n_declaration n with
      | None => Throw (error_obj "TypeError" "Cannot read properties of null")
      | Some d =>
          match d_id d with
          | Some name =>
              let o := overwrite (output response) (n_start n) (d_start d) EmptyString in
              Ok (with_output response
                    (appendRight o (d_end d)
                       ("; module.exports.default = " +:+ name +:+ ";")))
          | None =>
              Ok (with_output response
                    (overwrite (output response) (n_start n) (d_start d)
                       "module.exports.default = "))
          end
      end
  | ExportNamedDeclaration =>
      match n_declaration n with
      | Some d =>
          match d_id d, d_declarations d with
          | Some name, _ =>
              let o := overwrite (output response) (n_start n) (d_start d) EmptyString in
              Ok (with_output response
                    (appendRight o (d_end d)
                       ("; module.exports." +:+ name +:+ " = " +:+ name +:+ ";")))
          | None, Some ds =>
              let o := overwrite (output response) (n_start n) (d_start d) EmptyString in
              let out :=
                "; " +:+
                join_with ", "
                  (map (fun x => "module.exports." +:+ str_or_undefined x
                                 +:+ " = " +:+ str_or_undefined x) ds)
                +:+ ";" in
              Ok (with_output response (appendRight o (d_end d) out))
          | None, None => Ok response
          end
      | None =>
          match n_specifiers n with
          | Some specs =>
              try r :=
                (match n_source n with
                 | Some _ =>
                     try t := resolveImport context response n in
                     let '(transpiled, importAlias, response) := t in
                     Ok (transpiled, Some importAlias, response)
                 | None => Ok (EmptyString, None, response)
                 end) in
              let '(transpiled, importAlias, response) := r in
              let transpiled :=
                fold_left (fun t s => t +:+ export_assignment importAlias s)
                  specs transpiled in
              Ok (with_output response
                    (overwrite (output response) (n_start n) (n_end n)
                       transpiled))
          | None => Ok response
          end
      end
  | ExportAllDeclaration =>
      try r := resolveImport context response n in
      let '(transpiled, importAlias, response) := r in
      let transpiled :=
        transpiled +:+ "for(var k in " +:+ importAlias
        +:+ "){k !== " +:+ DQ +:+ "default" +:+ DQ +:+ " && (module.exports[k] = " +:+ importAlias
        +:+ "[k])}" in
      Ok (with_output response
            (overwrite (output response) (n_start n) (n_end n) transpiled))
  | OtherStatement => Ok response
  end.

(** The loop over [ast.body] from index [i], with [k] iterations left
    before [i] reaches [ast.body.length]. *)
Fixpoint rewrite_loop (context : option Options) (body : list node)
    (k i : nat) (response : Response) : outcome Response :=
  match k with
  | O => Ok response
  | S k' =>
      match body !! i with
      | None => Ok response
      | Some n =>
          try response := rewrite_node context response n in
          rewrite_loop context body k' (S i) response
      end
  end.

(** The text raised on a parse error. *)
Definition parse_diagnostic (input name message : string) (line column : nat)
    : string :=
  join_with LF
    [ name +:+ ": " +:+ message;
      "    " +:+ str_or_undefined
                   (match line with
                    | O => None
                    | S l => split_lines input !! l
                    end);
      "    " +:+ padStart "^" column ].

(** [module.exports = function (input, context)] *)
Definition es2cjs (input : string) (context : option Options)
    : outcome Result :=
  let response := mkResponse (MagicString_new input) [] in
  match acorn_parse input with
  | ParseError name message line column =>
      Throw (VStr (parse_diagnostic input name message line column))
  | Parsed body =>
      try response := rewrite_loop context body (length body) 0 response in
      Ok (mkResult (toString (output response)) (dependencies response))
  end.

(** ** The dependency list in the words of the specification *)

(** The statements whose rewrite resolves an import: import declarations,
    export-all declarations and re-exports ([export {...} from]). *)
Definition resolves_import (n : node) : bool :=
  match n_type n with
  | ImportDeclaration | ExportAllDeclaration => true
  | ExportNamedDeclaration =>
      match n_declaration n, n_specifiers n, n_source n with
      | None, Some _, Some _ => true
      | _, _, _ => false
      end
  | _ => false
  end.

(** The specifier of a statement that imports an internal module. *)
Definition internal_source (context : option Options) (n : node)
    : option string :=
  if resolves_import n then
    match n_source n with
    | Some src =>
        match isExternal context src with
        | Ok false => Some src
        | _ => None
        end
    | None => None
    end
  else None.

(** The dependencies a statement adds. *)
Definition added (context : option Options) (n : node) : list string :=
  match internal_source context n with
  | Some src => [src]
  | None => []
  end.

(** The internal specifiers of a statement list, in the order of the
    statements. *)
Definition internal_sources (context : option Options) (body : list node)
    : list string :=
  omap (internal_source context) body.

(** The parser's contract on a statement, and an external predicate that
    answers: an import or export-all has a source, a default export has a
    declaration. *)
Definition well_formed (context : option Options) (n : node) : bool :=
  match n_type n with
  | ExportDefaultDeclaration =>
      match n_declaration n with
      | Some _ => true
      | None => false
      end
  | OtherStatement => true
  | _ =>
      if resolves_import n then
        match n_source n with
        | Some src =>
            match isExternal context src with
            | Ok _ => true
            | Throw _ => false
            end
        | None => false
        end
      else true
  end.

(** The text that binds the alias of dependency [k] and the specifiers of
    the statement to it. *)
Definition internal_require (k : nat) (n : node) : string :=
  fold_left (fun t s => t +:+ internal_binding ("_i" +:+ pretty k) s)
    (specifiers_of n)
    ("var _i" +:+ pretty k +:+ " = require(__nollup__" +:+ pretty k +:+ ");").

End Transform.

End Es2cjs.

(* ================================================================== *)
(** * The calling conventions in the words of the specification *)
(* ================================================================== *)

Section Conventions.

Context {X : Type}.

(** Every plugin of the list, asked in order from world [w], answers with
    an absent result; [w'] is the world they leave. *)
Inductive declined_by (hook : string) (args : list value)
    : list (Plugin X) -> world X -> world X -> Prop :=
| declined_nil w : declined_by hook args [] w w
| declined_cons p ps w w1 w2 v :
    _callAsyncHook p hook args w = (Ok v, w1) ->
    is_absent v = true ->
    declined_by hook args ps w1 w2 ->
    declined_by hook args (p :: ps) w w2.

(** Every plugin of the list, asked in order from world [w], answers; the
    answers are [vs], in plugin order, and [w'] is the world they leave. *)
Inductive answered_by (hook : string) (args : list value)
    : list (Plugin X) -> world X -> list value -> world X -> Prop :=
| answered_nil w : answered_by hook args [] w [] w
| answered_cons p ps w w1 w2 v vs :
    _callAsyncHook p hook args w = (Ok v, w1) ->
    answered_by hook args ps w1 vs w2 ->
    answered_by hook args (p :: ps) w (v :: vs) w2.

(** Async-sequential dispatch as the specification words it: a fold over
    the plugins in registration order. *)
Fixpoint sequential_fold {A : Type} (plugins : list (Plugin X))
    (hook : string) (toArgs : A -> M X (list value))
    (fromResult : value -> A -> M X A) (acc : A) : M X A :=
  match plugins with
  | [] => ret acc
  | p :: rest =>
      args <~ toArgs acc ;;
      hr <~ _callAsyncHook p hook args ;;
      match hr with
      | VUndef | VNull =>
          sequential_fold rest hook toArgs fromResult acc
      | _ =>
          acc' <~ fromResult hr acc ;;
          sequential_fold rest hook toArgs fromResult acc'
      end
  end.

(** The specifier matches the configured external list or predicate; the
    predicate, a user function, runs from outside state [x] and leaves
    [x']. *)
Definition matches_external (config : option (Config X)) (id : string)
    (x x' : X) : Prop :=
  match config with
  | Some cfg =>
      match external cfg with
      | ExtArray names => VStr id ∈ names /\ x' = x
      | ExtFunction f =>
          exists e, f (VStr id) VUndef VUndef x = (Ok e, x') /\ truthy e = true
      | ExtOther _ => False
      end
  | None => False
  end.

(** World [w] with its outside state replaced. *)
Definition with_outside (w : world X) (x : X) : world X :=
  mkWorld (__meta w) (__currentMapChain w) (__currentOriginalCode w)
    (__currentModuleId w) (mapChain w) (syntheticNamedExports w) x (trace w).

(** World [w] with its metadata replaced. *)
Definition with_meta (w : world X) (m : gmap string obj) : world X :=
  mkWorld m (__currentMapChain w) (__currentOriginalCode w)
    (__currentModuleId w) (mapChain w) (syntheticNamedExports w)
    (outside w) (trace w).

(** [container.__meta] after [handleMetaProperty]. *)
Definition meta_after (filePath meta : value) (store : gmap string obj)
    : gmap string obj :=
  if truthy meta then merged_meta filePath meta store else store.

(** A transform result that carries the code [c] and the map [mp], a map
    with mapping data. *)
Definition carries (r c mp : value) : Prop :=
  is_absent r = false /\ typeof r <> "string"
  /\ get r "code" = c /\ c <> VUndef
  /\ get r "map" = mp /\ typeof mp = "object" /\ mp <> VNull
  /\ truthy (get mp "mappings") = true.

(** The [{code, map}] pair pushed on the map chain. *)
Definition chain_entry (c mp : value) : value :=
  VObj [("code", c); ("map", mp)].

(** The world that merging the transform result [r], which carries the
    code [c] and the map [mp], makes of [w]. *)
Definition after_merge (w : world X) (id : string) (r c mp : value)
    : world X :=
  mkWorld (meta_after (VStr id) (get r "meta") (__meta w))
    (__currentMapChain w) (__currentOriginalCode w) (__currentModuleId w)
    (mapChain w ++ [chain_entry c mp])
    (if truthy (get r "syntheticNamedExports")
        && is_undefined (syntheticNamedExports w)
     then get r "syntheticNamedExports" else syntheticNamedExports w)
    (outside w) (trace w).

(** The world in which [transform] starts its dispatch. *)
Definition transform_entry (w : world X) (code id : string) : world X :=
  mkWorld (__meta w) (Some LocalMapChain) (VStr code) (VStr id) []
    VUndef (outside w) (trace w).

(** The world a hook call leaves when the hook body leaves the metadata
    [m] and the outside state [x]. *)
Definition after_call (w : world X) (p : Plugin X) (hook : string)
    (args : list value) (m : gmap string obj) (x : X) : world X :=
  mkWorld m (__currentMapChain w) (__currentOriginalCode w)
    (__currentModuleId w) (mapChain w) (syntheticNamedExports w) x
    (trace w ++ [EvInvoke (name p) hook args]).

(** World [w] with one more event in its trace. *)
Definition with_event (w : world X) (e : event) : world X :=
  mkWorld (__meta w) (__currentMapChain w) (__currentOriginalCode w)
    (__currentModuleId w) (mapChain w) (syntheticNamedExports w)
    (outside w) (trace w ++ [e]).

End Conventions.

(* ================================================================== *)
(** * Concrete plugins, containers and sources *)
(* ================================================================== *)

Module Examples.

(** An error adapter that lets a rejection through unchanged. *)
Definition await_plain (s : settled) : outcome value :=
  match s with
  | Resolved v => Ok v
  | Rejected e => Throw e
  end.

(** A hook body that returns [v] and touches nothing. *)
Definition returning (v : value) : hook_fn unit :=
  fun _ st => (Returns v, st).

(** A plugin with a single entry. *)
Definition plugin (nm hook : string) (h : hook_entry unit) : Plugin unit :=
  mkPlugin nm (fun k => if String.eqb k hook then h else EMissing) await_plain.

Definition container (ps : list (Plugin unit)) : PluginContainer unit :=
  mkContainer ps None.

(** The world of a fresh container, after the calls of [t]. *)
Definition traced (t : list event) : world unit :=
  mkWorld ∅ None VNull VNull [] VUndef tt t.

Definition w0 : world unit := traced [].

(** Collaborators of the facade. *)
Definition isAbsolute (p : string) : bool :=
  match p with
  | String a _ => Ascii.eqb a (Ascii.ascii_of_nat 47)
  | EmptyString => false
  end.
Definition normalize (p : string) : string := p.
Definition resolve (a b : string) : string := a +:+ "/" +:+ b.
Definition cwd : string := "/proj".
Definition resolvePath (id : string) (parent : value) (_ : unit)
    : outcome string :=
  Ok (resolve cwd id).
Definition readFileSync (p : string) (_ : unit) : outcome string :=
  Ok ("contents of " +:+ p).
Definition combine (chain : list value) (code id : value) : outcome value :=
  Ok (VObj [("mappings", VStr "AAAA;combined")]).

(** Async-first: P1 declines, P2 answers X, P3 would answer Y. *)
Definition first_P1 : Plugin unit :=
  plugin "P1" "resolveId" (EFun (returning VUndef)).
Definition first_P2 : Plugin unit :=
  plugin "P2" "resolveId" (EFun (returning (VStr "X"))).
Definition first_P3 : Plugin unit :=
  plugin "P3" "resolveId" (EFun (returning (VStr "Y"))).
Definition first_plugins : list (Plugin unit) :=
  [first_P1; first_P2; first_P3].

(** Async-first: the first plugin answers [v]. *)
Definition answering_first (v : value) : list (Plugin unit) :=
  [ plugin "P1" "resolveId" (EFun (returning v)); first_P2 ].

(** Async-sequential: each hook adds to the number it is given. *)
Definition adding (k : Z) : hook_fn unit :=
  fun args st =>
    match args with
    | [VNum n] => (Returns (VNum (n + k)), st)
    | _ => (Returns VUndef, st)
    end.

Definition adding_plugins : list (Plugin unit) :=
  [ plugin "P1" "count" (EFun (adding 1));
    plugin "P2" "count" (EFun (returning VUndef));
    plugin "P3" "count" (EFun (adding 3)) ].

Definition count_toArgs (acc : value) : M unit (list value) := ret [acc].
Definition count_fromResult (hr acc : value) : M unit value := ret hr.

(** Async-parallel and join: a, nothing, b. *)
Definition banner_plugins : list (Plugin unit) :=
  [ plugin "P1" "banner" (EFun (returning (VStr "a")));
    plugin "P2" "banner" (EFun (returning VUndef));
    plugin "P3" "banner" (EFun (returning (VStr "b"))) ].

(** Two transforms, the second one setting [meta.x]. *)
Definition transform_r1 : value :=
  VObj [("code", VStr "one"); ("map", VObj [("mappings", VStr "AAAA")])].
Definition transform_r2 : value :=
  VObj [("code", VStr "two"); ("map", VObj [("mappings", VStr "CAAC")]);
        ("meta", VObj [("x", VNum 1)])].

Definition transform_P1 : Plugin unit :=
  plugin "P1" "transform" (EFun (returning transform_r1)).
Definition transform_P2 : Plugin unit :=
  plugin "P2" "transform" (EFun (returning transform_r2)).
Definition transform_plugins : list (Plugin unit) :=
  [transform_P1; transform_P2].

(** A [load] hook answering with an object. *)
Definition load_plugins (code : string) : list (Plugin unit) :=
  [ plugin "P1" "load"
      (EFun (returning (VObj [("code", VStr code);
                              ("meta", VObj [("x", VNum 1)])]))) ].

(** A hook entry that is a literal number. *)
Definition literal_number_plugin : Plugin unit :=
  plugin "P1" "banner" (ELit (VNum 5)).

(** A hook entry that is a literal string. *)
Definition literal_string_plugin : Plugin unit :=
  plugin "P1" "banner" (ELit (VStr "/* banner */")).

(** An external list. *)
Definition external_config : Config unit :=
  mkConfig (ExtArray [VStr "jquery"; VStr "lodash"]).

(** A [generateBundle] body: assign a new asset under the name of the
    first chunk, then read that name. *)
Definition reassigning_body : BundleView.view_program :=
  BundleView.Assign "main.js"
    (VObj [("fileName", VStr "main.js"); ("code", VStr "new")])
    (BundleView.ReadKey "main.js"
       (fun r => BundleView.Finish
                   (match r with
                    | Ok v => Returns v
                    | Throw e => Raises e
                    end))).

(** A bundle of two records. *)
Definition chunk (fileName code : string) : value :=
  VObj [("fileName", VStr fileName); ("code", VStr code)].
Definition bundle0 : list value :=
  [chunk "main.js" "m"; chunk "vendor.js" "v"].

(** ** Sources, and a parser and an edit buffer to rewrite them with *)

(** [let x = ;] which acorn rejects at line 1, column 8: the [;]. *)
Definition bad_source : string := "let x = ;".

(** [import a from "./m"] *)
Definition import_source : string :=
  "import a from " +:+ DQ +:+ "./m" +:+ DQ.

Definition import_node : Es2cjs.node :=
  Es2cjs.mkNode Es2cjs.ImportDeclaration 0 19 (Some "./m")
    (Some [Es2cjs.ImportDefaultSpecifier "a"]) None.

(** [import a from "./m"], a line break, [import b from "./n"] *)
Definition two_imports_source : string :=
  import_source +:+ LF +:+ "import b from " +:+ DQ +:+ "./n" +:+ DQ.

Definition second_import_node : Es2cjs.node :=
  Es2cjs.mkNode Es2cjs.ImportDeclaration 20 39 (Some "./n")
    (Some [Es2cjs.ImportDefaultSpecifier "b"]) None.

Definition parse (input : string) : Es2cjs.parse_result :=
  if String.eqb input bad_source then
    Es2cjs.ParseError "SyntaxError" "Unexpected token (1:8)" 1 8
  else if String.eqb input import_source then Es2cjs.Parsed [import_node]
  else if String.eqb input two_imports_source then
    Es2cjs.Parsed [import_node; second_import_node]
  else Es2cjs.Parsed [].

(** An edit buffer for the edits the transform makes, overwrites of
    disjoint spans and text appended at offsets: the source text and the
    edits [(start, end, text)] in the order they were made, an edit with
    [start = end] being appended text.  As in magic-string, an overwrite
    drops the text appended before it at an offset of its span. *)
Record buffer : Type := mkBuffer {
  original : string;
  edits : list (nat * nat * string)
}.

Definition buffer_new (s : string) : buffer := mkBuffer s [].
Definition buffer_overwrite (b : buffer) (s e : nat) (t : string) : buffer :=
  mkBuffer (original b) (edits b ++ [(s, e, t)]).
Definition buffer_appendRight (b : buffer) (i : nat) (t : string) : buffer :=
  mkBuffer (original b) (edits b ++ [(i, i, t)]).

(** The text appended at offset [i] and still there, and the replacement
    of the overwrite that starts at [i]. *)
Definition texts_at (i : nat) (es : list (nat * nat * string))
    : string * string :=
  fold_left
    (fun acc e =>
       let '(s, e', t) := e in
       if Nat.ltb s e' then
         if Nat.leb s i && Nat.ltb i e'
         then (EmptyString, if Nat.eqb s i then t else EmptyString)
         else acc
       else if Nat.eqb s i then (fst acc +:+ t, snd acc) else acc)
    es (EmptyString, EmptyString).

Definition inserted_at (i : nat) (es : list (nat * nat * string)) : string :=
  fst (texts_at i es) +:+ snd (texts_at i es).

Definition covered (i : nat) (es : list (nat * nat * string)) : bool :=
  existsb (fun e => Nat.leb (fst (fst e)) i && Nat.ltb i (snd (fst e))) es.

Fixpoint render (es : list (nat * nat * string)) (s : string) (i : nat)
    : string :=
  match s with
  | EmptyString => inserted_at i es
  | String a r =>
      inserted_at i es
      +:+ (if covered i es then EmptyString else String a EmptyString)
      +:+ render es r (S i)
  end.

Definition buffer_toString (b : buffer) : string :=
  render (edits b) (original b) 0.

Definition es2cjs : string -> option Es2cjs.Options -> outcome Es2cjs.Result :=
  Es2cjs.es2cjs parse buffer buffer_new buffer_overwrite buffer_appendRight
    buffer_toString.

End Examples.

(* ================================================================== *)
(** * More of the lifecycle: the sync path and the other methods *)
(* ================================================================== *)

(** What a sync call hands back: a value, or a promise that nobody
    awaits (with how it would settle). *)
Inductive sync_value : Type :=
| Plain (v : value)
| Pending (s : settled).

Section SyncPath.

Context {X : Type}.

(** [hr === null || hr === undefined]; a promise is an object. *)
Definition sync_absent (r : sync_value) : bool :=
  match r with
  | Plain v => is_absent v
  | Pending _ => false
  end.

(** [plugin.execute[hook].apply(plugin.context, args)], not awaited. *)
Definition apply_hook_sync (plugin : Plugin X) (hook : string)
    (h : hook_entry X) (args : list value) : M X sync_value :=
  match h with
  | EFun f =>
      emit (EvInvoke (name plugin) hook args) ;;;
      fun w =>
        let '(r, (m', x')) := f args (__meta w, outside w) in
        (match r with
         | Returns v => Ok (Plain v)
         | Raises e => Throw e
         | Promised s => Ok (Pending s)
         end,
         mkWorld m' (__currentMapChain w) (__currentOriginalCode w)
           (__currentModuleId w) (mapChain w) (syntheticNamedExports w)
           x' (trace w))
  | _ =>
      throw (error_obj "TypeError"
               "plugin.execute[hook].apply is not a function")
  end.

Definition _callSyncHook (plugin : Plugin X) (hook : string)
    (args : list value) : M X sync_value :=
  let h := execute plugin hook in
  if entry_truthy h then apply_hook_sync plugin hook h args
  else ret (Plain VUndef).

(** The loop of [callSyncFirstHook] from index [i], with [n] iterations
    left. *)
Fixpoint callSyncFirstHook_loop (plugins : list (Plugin X)) (hook : string)
    (args : list value) (n i : nat) : M X sync_value :=
  match n with
  | O => ret (Plain VUndef)
  | S n' =>
      match plugins !! i with
      | None => ret (Plain VUndef)
      | Some p =>
          hr <~ _callSyncHook p hook args ;;
          if negb (sync_absent hr) then ret hr
          else callSyncFirstHook_loop plugins hook args n' (S i)
      end
  end.

Definition callSyncFirstHook (container : PluginContainer X) (hook : string)
    (args : list value) : M X sync_value :=
  callSyncFirstHook_loop (__plugins container) hook args
    (length (__plugins container)) 0.

(** [container.__config.output.format]; the record [Config] holds
    [external] only, the rest of the configuration is read through this
    parameter. *)
Variable output_format : Config X -> outcome value.

Definition config_format (container : PluginContainer X) : M X value :=
  match __config container with
  | Some cfg => computing (output_format cfg)
  | None =>
      throw (error_obj "TypeError" "Cannot read properties of null")
  end.

(** [s.startsWith(p)] *)
Definition startsWith (s p : string) : bool := String.prefix p s.

(** The argument [resolveFileUrl] gives to the hooks. *)
Definition resolveFileUrl_arg (metaProperty : string)
    (referenceId fileName chunkId moduleId format : value) : value :=
  VObj [ ("chunkId", chunkId);
         ("fileName", fileName);
         ("format", format);
         ("moduleId", moduleId);
         ("relativePath", fileName);
         ("referenceId", referenceId);
         ("assetReferenceId",
          if startsWith metaProperty "ROLLUP_ASSET_URL_" then referenceId
          else VNull);
         ("chunkReferenceId",
          if startsWith metaProperty "ROLLUP_CHUNK_URL_" then referenceId
          else VNull) ].

Definition resolveFileUrl (container : PluginContainer X)
    (metaProperty : string) (referenceId fileName chunkId moduleId : value)
    : M X sync_value :=
  format <~ config_format container ;;
  callSyncFirstHook container "resolveFileUrl"
    [resolveFileUrl_arg metaProperty referenceId fileName chunkId moduleId
       format].

Definition resolveImportMeta (container : PluginContainer X)
    (metaProperty chunkId moduleId : value) : M X sync_value :=
  format <~ config_format container ;;
  callSyncFirstHook container "resolveImportMeta"
    [metaProperty;
     VObj [("chunkId", chunkId); ("format", format); ("moduleId", moduleId)]].

End SyncPath.

Section OtherMethods.

Context {X : Type}.

Variable path_isAbsolute : string -> bool.
Variable path_normalize : string -> string.
Variable path_resolve : string -> string -> string.
Variable process_cwd : string.
Variable resolvePath : string -> value -> X -> outcome string.
(** [getModuleInfo] of [./PluginUtils] *)
Variable getModuleInfo : PluginContainer X -> string -> M X value.

(** The specifier of a dynamic import: a string, or the node of an
    expression (an object). *)
Inductive import_specifier : Type :=
| Literal (s : string)
| Expression (node : obj).

Definition specifier_value (id : import_specifier) : value :=
  match id with
  | Literal s => VStr s
  | Expression node => VObj node
  end.

Definition resolveDynamicImport (container : PluginContainer X)
    (id : import_specifier) (parentFilePath : value) : M X value :=
  hr <~ callAsyncFirstHook container "resolveDynamicImport"
          [specifier_value id; parentFilePath] ;;
  excluded <~ (if is_false hr then ret true
               else if String.eqb (typeof hr) "object" then
                 e <~ member hr "external" ;; ret (truthy e)
               else ret false) ;;
  if excluded : bool then ret (VBool false)
  else if String.eqb (typeof hr) "string" then ret (VObj [("id", hr)])
  else if String.eqb (typeof hr) "object" then ret hr
  else
    match id with
    | Expression _ => ret (VBool false)
    | Literal s =>
        resolveId path_isAbsolute path_normalize path_resolve process_cwd
          resolvePath container s parentFilePath
    end.

(** [buildStart], [buildEnd], [renderStart] and [renderError] differ in
    the hook name and the arguments only. *)
Definition notify (container : PluginContainer X) (hook : string)
    (args : list value) : M X value :=
  callAsyncParallelHook container hook args ;;;
  ret VUndef.

Definition buildStart (container : PluginContainer X) (options : value)
    : M X value :=
  notify container "buildStart" [options].
Definition buildEnd (container : PluginContainer X) (error : value)
    : M X value :=
  notify container "buildEnd" [error].
Definition renderStart (container : PluginContainer X)
    (outputOptions inputOptions : value) : M X value :=
  notify container "renderStart" [outputOptions; inputOptions].
Definition renderError (container : PluginContainer X) (e : value)
    : M X value :=
  notify container "renderError" [e].
Definition moduleParsed (container : PluginContainer X) (filePath : string)
    : M X value :=
  info <~ getModuleInfo container filePath ;;
  notify container "moduleParsed" [info].

(** The merge function of [renderChunk]: it writes into the object
    [chunkInfo] that the method was given, and returns nothing.  The
    object as it is before and after the writes is carried beside the
    value the dispatch holds.  (The hooks of [renderChunk] are handed
    that same object, and what they do to it is theirs.) *)
Definition renderChunk_fromResult (result : value) (acc : value * obj)
    : M X (value * obj) :=
  let chunkInfo := snd acc in
  let result := if String.eqb (typeof result) "string"
                then VObj [("code", result)] else result in
  rcode <~ member result "code" ;;
  let chunkInfo := if truthy rcode then set_prop "code" rcode chunkInfo
                   else chunkInfo in
  rmap <~ member result "map" ;;
  let chunkInfo := if truthy rmap then set_prop "map" rmap chunkInfo
                   else chunkInfo in
  ret (VUndef, chunkInfo).

End OtherMethods.

Section MoreConventions.

Context {X : Type}.

(** The calls a dispatch makes when it asks every plugin of the list:
    one for each plugin whose entry for the hook is a function. *)
Definition invocations (hook : string) (args : list value)
    (ps : list (Plugin X)) : list event :=
  flat_map (fun p => match execute p hook with
                     | EFun _ => [EvInvoke (name p) hook args]
                     | _ => []
                     end) ps.

(** The transient fields of the container are [null]. *)
Definition transient_reset (w : world X) : Prop :=
  __currentMapChain w = None
  /\ __currentOriginalCode w = VNull
  /\ __currentModuleId w = VNull.

(** The transient fields of the container are those of the [transform] of
    [code] for module [id]. *)
Definition transient_set (code id : string) (w : world X) : Prop :=
  __currentMapChain w = Some LocalMapChain
  /\ __currentOriginalCode w = VStr code
  /\ __currentModuleId w = VStr id.

(** An event of the trace that is a call of the map combiner. *)
Definition is_combine (e : event) : bool :=
  match e with
  | EvCombine _ _ _ => true
  | _ => false
  end.

(** Between [w] and [w'] the transient fields stayed and the map
    combiner was not called. *)
Definition undisturbed (w w' : world X) : Prop :=
  __currentMapChain w' = __currentMapChain w
  /\ __currentOriginalCode w' = __currentOriginalCode w
  /\ __currentModuleId w' = __currentModuleId w
  /\ List.filter is_combine (trace w') = List.filter is_combine (trace w).

(** A computation that, from any world, leaves an undisturbed world. *)
Definition quiet {A} (m : M X A) : Prop :=
  forall w, undisturbed w (snd (m w)).

End MoreConventions.

Module MoreExamples.

Import Examples.

Definition format_of (_ : Config unit) : outcome value := Ok (VStr "esm").

(** A sync hook that returns a promise. *)
Definition promising (v : value) : hook_fn unit :=
  fun _ st => (Promised (Resolved v), st).

Definition url_plugins : list (Plugin unit) :=
  [ plugin "P1" "resolveFileUrl" (EFun (promising (VStr "late")));
    plugin "P2" "resolveFileUrl" (EFun (returning (VStr "never asked"))) ].

Definition literal_url_plugin : Plugin unit :=
  plugin "P1" "resolveFileUrl" (ELit (VStr "'x.js'")).

(** A hook that raises. *)
Definition raising (e : value) : hook_fn unit :=
  fun _ st => (Raises e, st).

Definition failing_plugins : list (Plugin unit) :=
  [ plugin "P1" "buildStart" (EFun (raising (VStr "boom")));
    plugin "P2" "buildStart" (EFun (returning VUndef)) ].

Definition failing_transform_plugins : list (Plugin unit) :=
  [ transform_P1; plugin "P2" "transform" (EFun (raising (VStr "boom"))) ].

Definition dynamic_plugins (v : value) : list (Plugin unit) :=
  [ plugin "P1" "resolveDynamicImport" (EFun (returning v)) ].

Definition resolve_plugins (v : value) : list (Plugin unit) :=
  [ plugin "P1" "resolveId" (EFun (returning v)) ].

Definition chunk_info : obj :=
  [("fileName", VStr "main.js"); ("code", VStr "source"); ("map", VNull)].

Definition moduleInfo (c : PluginContainer unit) (filePath : string)
    : M unit value :=
  ret (VObj [("id", VStr filePath)]).

(** A world in which a [transform] result has set
    [syntheticNamedExports]. *)
Definition w_named : world unit :=
  mkWorld ∅ (Some LocalMapChain) (VStr "src") (VStr "/m.js") [] (VStr "a")
    tt [].

(** A source of one plain statement, and its parser. *)
Definition plain_source : string := "let x = 1;".
Definition plain_node : Es2cjs.node :=
  Es2cjs.mkNode Es2cjs.OtherStatement 0 10 None None None.
Definition parse_plain (input : string) : Es2cjs.parse_result :=
  Es2cjs.Parsed [plain_node].

(** [jquery] is external and its global is [$]. *)
Definition jquery_options : Es2cjs.Options :=
  Es2cjs.mkOptions (Es2cjs.ExtArray [VStr "jquery"]) (Some [("jquery", "$")]).

(** [import $ from "jquery"] and [import "jquery"] *)
Definition jquery_import : Es2cjs.node :=
  Es2cjs.mkNode Es2cjs.ImportDeclaration 0 22 (Some "jquery")
    (Some [Es2cjs.ImportDefaultSpecifier "$"]) None.
Definition jquery_side_effect : Es2cjs.node :=
  Es2cjs.mkNode Es2cjs.ImportDeclaration 0 16 (Some "jquery") (Some []) None.

(** [constructor] is external and no global is configured.
    [import c from "constructor"] *)
Definition constructor_options : Es2cjs.Options :=
  Es2cjs.mkOptions (Es2cjs.ExtArray [VStr "constructor"]) None.
Definition constructor_import : Es2cjs.node :=
  Es2cjs.mkNode Es2cjs.ImportDeclaration 0 27 (Some "constructor")
    (Some [Es2cjs.ImportDefaultSpecifier "c"]) None.

Definition empty_response : Es2cjs.Response buffer :=
  Es2cjs.mkResponse buffer (buffer_new EmptyString) [].

End MoreExamples.

(* ================================================================== *)
(** * Properties of the calling conventions *)
(* ================================================================== *)

Section ConventionFacts.

Context {X : Type}.
Implicit Types (p : Plugin X) (w : world X) (hook : string)
  (args : list value).

Lemma bind_Ok {A B} (m : M X A) (k : A -> M X B) w a w1 :
  m w = (Ok a, w1) -> bind m k w = k a w1.
Proof. intros H. unfold bind. now rewrite H. Qed.

Lemma bind_Throw {A B} (m : M X A) (k : A -> M X B) w e w1 :
  m w = (Throw e, w1) -> bind m k w = (Throw e, w1).
Proof. intros H. unfold bind. now rewrite H. Qed.

Lemma bind_ext {A B} (m : M X A) (k k' : A -> M X B) w :
  (forall a w1, k a w1 = k' a w1) -> bind m k w = bind m k' w.
Proof. intros H. unfold bind. destruct (m w) as [[a|e] w1]; auto. Qed.

Lemma lookup_at_length {A} (done rest : list A) (a : A) :
  (done ++ a :: rest) !! length done = Some a.
Proof. apply list_lookup_middle. reflexivity. Qed.

(** The loop of [callAsyncFirstHook] walks past plugins that decline. *)
Lemma first_loop_skips hook args pre w w1 :
  declined_by hook args pre w w1 ->
  forall done rest,
    callAsyncFirstHook_loop (done ++ pre ++ rest) hook args
      (length (pre ++ rest)) (length done) w
    = callAsyncFirstHook_loop (done ++ pre ++ rest) hook args
        (length rest) (length done + length pre) w1.
Proof.
  induction 1 as [w|p ps w wa wb v Hp Habs _ IH]; intros done rest.
  - simpl. now rewrite Nat.add_0_r.
  - simpl length. cbn [callAsyncFirstHook_loop app].
    rewrite lookup_at_length.
    rewrite (bind_Ok _ _ _ _ _ Hp), Habs. cbn [negb].
    specialize (IH (done ++ [p]) rest).
    rewrite <- !app_assoc in IH. rewrite !length_app in *.
    cbn [app length] in IH.
    replace (length done + 1) with (S (length done)) in IH by lia.
    replace (length done + S (length ps)) with (S (length done) + length ps)
      by lia.
    exact IH.
Qed.


Lemma first_loop_result plugins hook args n :
  forall i w hr w1,
    callAsyncFirstHook_loop plugins hook args n i w = (Ok hr, w1) ->
    hr = VUndef \/ is_absent hr = false.
Proof.
  induction n as [|n IH]; intros i w hr w1; cbn [callAsyncFirstHook_loop].
  - intros [= <- _]. now left.
  - destruct (plugins !! i) as [p|]; [|intros [= <- _]; now left].
    unfold bind at 1.
    destruct (_callAsyncHook p hook args w) as [[v|e] wa]; [|discriminate].
    destruct (is_absent v) eqn:Hv; cbn [negb].
    + apply IH.
    + intros [= <- _]. now right.
Qed.

(** The result of async-first dispatch is never [null]. *)
Lemma callAsyncFirstHook_result container hook args w hr w1 :
  callAsyncFirstHook container hook args w = (Ok hr, w1) ->
  hr = VUndef \/ is_absent hr = false.
Proof. apply first_loop_result. Qed.

Lemma sequential_loop_fold {A} hook (toArgs : A -> M X (list value))
    (fromResult : value -> A -> M X A) rest :
  forall done acc w,
    callAsyncSequentialHook_loop (done ++ rest) hook toArgs fromResult
      (length rest) (length done) acc w
    = sequential_fold rest hook toArgs fromResult acc w.
Proof.
  induction rest as [|p rest IH]; intros done acc w; [reflexivity|].
  cbn [length callAsyncSequentialHook_loop sequential_fold].
  rewrite lookup_at_length.
  assert (Hnext : forall acc' w',
    callAsyncSequentialHook_loop (done ++ p :: rest) hook toArgs fromResult
      (length rest) (S (length done)) acc' w'
    = sequential_fold rest hook toArgs fromResult acc' w').
  { intros acc' w'. specialize (IH (done ++ [p]) acc' w').
    rewrite <- app_assoc, length_app in IH. cbn [app length] in IH.
    now rewrite Nat.add_1_r in IH. }
  apply bind_ext; intros args wa.
  apply bind_ext; intros hr wb.
  destruct hr; cbn [is_absent negb];
    solve [ apply Hnext | apply bind_ext; intros; apply Hnext ].
Qed.

Lemma parallel_loop_answered hook args ps w vs w1 :
  answered_by hook args ps w vs w1 ->
  forall done collected,
    callAsyncParallelHook_loop (done ++ ps) hook args (length ps)
      (length done) collected w
    = (Ok (collected ++ map Ok vs), w1).
Proof.
  induction 1 as [w|p ps w wa wb v vs Hp _ IH]; intros done collected.
  - cbn. now rewrite app_nil_r.
  - cbn [length callAsyncParallelHook_loop map].
    rewrite lookup_at_length.
    unfold bind at 1, spawn. rewrite Hp.
    specialize (IH (done ++ [p]) (collected ++ [Ok v])).
    rewrite <- !app_assoc, length_app in IH. cbn [app length] in IH.
    rewrite Nat.add_1_r in IH. exact IH.
Qed.

Lemma promise_all_Ok vs : promise_all (map Ok vs) = Ok vs.
Proof. induction vs as [|v vs IH]; cbn; [reflexivity|now rewrite IH]. Qed.

(** When every plugin answers, async-parallel dispatch returns all the
    answers, in plugin order. *)
Lemma callAsyncParallelHook_answered cfg hook args ps w vs w1 :
  answered_by hook args ps w vs w1 ->
  callAsyncParallelHook (mkContainer ps cfg) hook args w = (Ok vs, w1).
Proof.
  intros H. unfold callAsyncParallelHook. cbn [__plugins].
  pose proof (parallel_loop_answered _ _ _ _ _ _ H [] []) as Hl.
  cbn [app length] in Hl.
  rewrite (bind_Ok _ _ _ _ _ Hl). now rewrite promise_all_Ok.
Qed.

End ConventionFacts.

Section ConventionClaims.

Context {X : Type}.
Implicit Types (p : Plugin X) (w : world X) (hook : string)
  (args : list value).

(** C1. Async-first dispatch asks the plugins in registration order and
    returns the first result that is neither [undefined] nor [null]: when
    the plugins [pre] registered before [p] all decline and [p] answers
    [v] (any other value: an empty string or [0] too), the dispatch
    returns [v] in the very world [p]'s hook left, whatever plugins [post]
    are registered after [p]; their hooks are not invoked. *)
Theorem callAsyncFirstHook_first_opinion cfg pre p post hook args w w1 w2 v :
  declined_by hook args pre w w1 ->
  _callAsyncHook p hook args w1 = (Ok v, w2) ->
  v <> VUndef -> v <> VNull ->
  callAsyncFirstHook (mkContainer (pre ++ p :: post) cfg) hook args w
  = (Ok v, w2).
Proof.
  intros Hpre Hp Hu Hn. unfold callAsyncFirstHook. cbn [__plugins].
  pose proof (first_loop_skips _ _ _ _ _ Hpre [] (p :: post)) as Hskip.
  cbn [app length Nat.add] in Hskip. rewrite Hskip. clear Hskip.
  cbn [length callAsyncFirstHook_loop].
  rewrite lookup_at_length, (bind_Ok _ _ _ _ _ Hp).
  destruct v; try reflexivity; congruence.
Qed.

(** C8 (amended). A hook entry that is a literal string is returned as it
    is, and an omitted hook contributes [undefined]; neither invokes
    anything (the world, trace included, is untouched).  The same holds
    through each async calling convention, shown on the container of that
    one plugin. *)
Theorem _callAsyncHook_literal_string cfg p hook args w v :
  (exists s, execute p hook = ELit (VStr s) /\ v = VStr s)
  \/ (execute p hook = EMissing /\ v = VUndef) ->
  _callAsyncHook p hook args w = (Ok v, w)
  /\ callAsyncFirstHook (mkContainer [p] cfg) hook args w = (Ok v, w)
  /\ callAsyncParallelHook (mkContainer [p] cfg) hook args w = (Ok [v], w)
  /\ forall A (toArgs : A -> M X (list value)) fromResult (start : A),
       toArgs start w = (Ok args, w) ->
       callAsyncSequentialHook (mkContainer [p] cfg) hook toArgs fromResult
         start w
       = (if is_absent v then ret start else fromResult v start) w.
Proof.
  intros H.
  assert (Hcall : forall args' w', _callAsyncHook p hook args' w' = (Ok v, w')).
  { intros args' w'. unfold _callAsyncHook.
    destruct H as [(s & -> & ->)|[-> ->]]; reflexivity. }
  split; [apply Hcall|]. split; [|split].
  - unfold callAsyncFirstHook. cbn [__plugins length callAsyncFirstHook_loop].
    cbn [lookup list_lookup]. rewrite (bind_Ok _ _ _ _ _ (Hcall _ _)).
    destruct H as [(s & _ & ->)|[_ ->]]; reflexivity.
  - apply callAsyncParallelHook_answered.
    econstructor; [apply Hcall|constructor].
  - intros A toArgs fromResult start Hargs.
    unfold callAsyncSequentialHook.
    cbn [__plugins length callAsyncSequentialHook_loop].
    cbn [lookup list_lookup]. rewrite (bind_Ok _ _ _ _ _ Hargs).
    rewrite (bind_Ok _ _ _ _ _ (Hcall _ _)).
    destruct (is_absent v); cbn [negb]; unfold bind, ret;
      [reflexivity|].
    destruct (fromResult v start w) as [[a|e] w']; reflexivity.
Qed.

(** C3 (amended). [banner], [footer], [intro] and [outro] join the hook
    results of all the plugins, in plugin order, with a line feed.  No
    result is left out: an absent one joins as the empty string, as an
    empty string does, so it keeps its (empty) line. *)
Theorem joined_hooks_keep_every_result cfg ps w vs w1 hook method :
  In (hook, method)
     [("banner", banner); ("footer", footer);
      ("intro", intro); ("outro", @outro X)] ->
  answered_by hook [] ps w vs w1 ->
  method (mkContainer ps cfg) w
  = (Ok (VStr (join_with LF
                 (map (fun v => match v with
                                | VUndef | VNull => EmptyString
                                | _ => ToString v
                                end) vs))), w1)
  /\ length vs = length ps.
Proof.
  intros Hin Hans. split.
  - assert (Hm : method = fun c => joined_hook c hook).
    { cbn in Hin.
      destruct Hin as [[= <- <-]|[[= <- <-]|[[= <- <-]|[[= <- <-]|[]]]]];
        reflexivity. }
    subst method. unfold joined_hook.
    rewrite (bind_Ok _ _ _ _ _ (callAsyncParallelHook_answered _ _ _ _ _ _ _ Hans)).
    unfold ret, array_join. do 4 f_equal.
    apply map_ext. intros v. now destruct v.
  - clear Hin. induction Hans; cbn; auto.
Qed.

End ConventionClaims.

(** C2. Async-sequential dispatch is the fold over the plugins, in
    registration order, that asks each plugin with the arguments projected
    from the current accumulator, merges a result that is not absent into
    the accumulator and leaves the accumulator alone otherwise; its result
    is the last accumulator.  From seed 0, hooks that add 1, decline and
    add 3 to the value they are given are called with 0, 1 and 1 and
    give 4. *)
Theorem callAsyncSequentialHook_folds :
  (forall (X A : Type) (container : PluginContainer X) hook
          (toArgs : A -> M X (list value)) fromResult (start : A) w,
     callAsyncSequentialHook container hook toArgs fromResult start w
     = sequential_fold (__plugins container) hook toArgs fromResult start w)
  /\ (let r := callAsyncSequentialHook
                 (Examples.container Examples.adding_plugins) "count"
                 Examples.count_toArgs Examples.count_fromResult (VNum 0)
                 Examples.w0 in
      fst r = Ok (VNum 4)
      /\ trace (snd r) = [ EvInvoke "P1" "count" [VNum 0];
                           EvInvoke "P2" "count" [VNum 1];
                           EvInvoke "P3" "count" [VNum 1] ]).
Proof.
  split.
  - intros X A container hook toArgs fromResult start w.
    unfold callAsyncSequentialHook.
    apply (sequential_loop_fold hook toArgs fromResult _ []).
  - vm_compute. split; reflexivity.
Qed.

(* ================================================================== *)
(** * Properties of the lifecycle facade *)
(* ================================================================== *)

Section FacadeClaims.

Context {X : Type}.
Variable path_isAbsolute : string -> bool.
Variable path_normalize : string -> string.
Variable path_resolve : string -> string -> string.
Variable process_cwd : string.
Variable resolvePath : string -> value -> X -> outcome string.
Variable fs_readFileSync : string -> X -> outcome string.
Variable combineSourceMapChainFast :
  list value -> value -> value -> outcome value.

Implicit Types (w : world X) (container : PluginContainer X).

Lemma with_meta_same w : with_meta w (__meta w) = w.
Proof. now destruct w. Qed.

Lemma indexOf_from_found name arr :
  VStr name ∈ arr -> forall i, (0 <= i)%Z -> (-1 < indexOf_from name arr i)%Z.
Proof.
  induction arr as [|u arr IH]; intros Hin i Hi; cbn [indexOf_from].
  - now apply not_elem_of_nil in Hin.
  - apply elem_of_cons in Hin as [<-|Hin].
    + cbn [is_string]. rewrite String.eqb_refl. lia.
    + destruct (is_string name u); [lia|]. apply IH; [exact Hin|lia].
Qed.

(** A specifier that matches the configured external list or predicate
    makes [isExternal] answer with a truthy value. *)
Lemma isExternal_matches config id w x' :
  matches_external config id (outside w) x' ->
  exists e, isExternal config id w = (Ok e, with_outside w x')
            /\ truthy e = true.
Proof.
  unfold matches_external, isExternal.
  destruct config as [cfg|]; [|intros []].
  destruct (external cfg) as [names|f|v]; [| |intros []].
  - intros [Hin ->]. eexists. split.
    + unfold ret. f_equal. now destruct w.
    + cbn [truthy]. apply Z.ltb_lt. now apply indexOf_from_found.
  - intros (e & Hf & He). exists e. split; [|exact He].
    unfold on_outside. now rewrite Hf.
Qed.

(** C6. When the async-first [resolveId] hook answers [false], or the
    specifier matches the configured external list or predicate,
    [resolveId] returns [{ id: specifier, external: true }] with the
    specifier as it was given; no metadata is merged. *)
Theorem resolveId_external container id parent w hr w1 :
  callAsyncFirstHook container "resolveId" [VStr id; parent] w = (Ok hr, w1) ->
  hr = VBool false
  \/ (exists x', matches_external (__config container) id (outside w1) x') ->
  let r := resolveId path_isAbsolute path_normalize path_resolve process_cwd
             resolvePath container id parent w in
  fst r = Ok (VObj [("id", VStr id); ("external", VBool true)])
  /\ __meta (snd r) = __meta w1
  /\ trace (snd r) = trace w1.
Proof.
  intros Hhook Hcase r.
  assert (Hr : exists w2,
    r = (Ok (VObj [("id", VStr id); ("external", VBool true)]), w2)
    /\ __meta w2 = __meta w1 /\ trace w2 = trace w1).
  { subst r. unfold resolveId. rewrite (bind_Ok _ _ _ _ _ Hhook).
    destruct (is_false hr) eqn:Hf.
    - exists w1. auto.
    - destruct Hcase as [->|[x' Hm]]; [discriminate|].
      destruct (isExternal_matches _ _ _ _ Hm) as (e & He & Ht).
      exists (with_outside w1 x'). unfold bind at 1. unfold bind at 1.
      rewrite He. unfold ret at 1. rewrite Ht. auto. }
  destruct Hr as (w2 & -> & Hmeta & Htrace). auto.
Qed.

(** C7. What [load] does with the result [hr] of the async-first [load]
    hook: a string, the empty one too, becomes [{code: hr}]; an object
    whose [code] is truthy has its [meta] merged into the metadata of the
    module and is returned as it is; in every other case the file is read
    from disk and nothing is merged.  The other cases are no opinion and
    an opinion without a truthy [code]: an object whose [code] is the
    empty string is not returned and its [meta] is not merged, unlike the
    empty string given as a string. *)
Theorem load_by_hook_result container filePath parent w hr w1 :
  callAsyncFirstHook container "load" [VStr filePath; parent] w = (Ok hr, w1) ->
  load path_isAbsolute path_resolve process_cwd fs_readFileSync container
    filePath parent w
  = if String.eqb (typeof hr) "string" then (Ok (VObj [("code", hr)]), w1)
    else if String.eqb (typeof hr) "object" && truthy (get hr "code") then
      (Ok hr,
       with_meta w1 (meta_after (VStr filePath) (get hr "meta") (__meta w1)))
    else
      let path := if path_isAbsolute filePath then filePath
                  else path_resolve process_cwd filePath in
      (match fs_readFileSync path (outside w1) with
       | Ok code => Ok (VObj [("code", VStr code)])
       | Throw e => Throw e
       end,
       with_event w1 (EvReadFile path)).
Proof.
  intros Hhook. unfold load. rewrite (bind_Ok _ _ _ _ _ Hhook).
  destruct (callAsyncFirstHook_result _ _ _ _ _ _ Hhook) as [->|Habs].
  - cbn. unfold bind, reading. cbn.
    destruct (fs_readFileSync _ _); reflexivity.
  - destruct (String.eqb (typeof hr) "string") eqn:Hs; [reflexivity|].
    unfold member. rewrite Habs.
    destruct (String.eqb (typeof hr) "object") eqn:Ho; cbn [andb].
    + unfold bind at 1. unfold bind at 1. unfold ret at 1 2.
      destruct (truthy (get hr "code")) eqn:Hc.
      * unfold bind at 1. unfold ret at 1. unfold handleMetaProperty, meta_after.
        destruct (truthy (get hr "meta")).
        -- reflexivity.
        -- cbn. now rewrite with_meta_same.
      * assert (Ht : truthy hr = true) by (destruct hr; try discriminate; reflexivity).
        rewrite Ht. cbn [negb]. unfold bind at 1. unfold bind at 1.
        unfold ret at 1 2. rewrite Hc. cbn [negb].
        unfold bind, reading. cbn.
        destruct (fs_readFileSync _ _); reflexivity.
    + unfold bind at 1. unfold ret at 1.
      assert (Hg : get hr "code" = VUndef).
      { destruct hr; try discriminate; reflexivity. }
      rewrite Hg. cbn [truthy negb].
      destruct (truthy hr); cbn [negb];
        unfold bind, reading, ret; cbn;
        destruct (fs_readFileSync _ _); reflexivity.
Qed.

End FacadeClaims.

Section TransformFacts.

Context {X : Type}.
Variable combineSourceMapChainFast :
  list value -> value -> value -> outcome value.

Implicit Types (w : world X) (container : PluginContainer X).

Lemma bind_ret {A B} (a : A) (k : A -> M X B) w : bind (ret a) k w = k a w.
Proof. reflexivity. Qed.

Lemma member_present v k :
  is_absent v = false -> @member X v k = ret (get v k).
Proof. intros H. unfold member. now rewrite H. Qed.

Lemma lookup_prop_set_prop k k' v ps :
  lookup_prop k (set_prop k' v ps)
  = if String.eqb k' k then v else lookup_prop k ps.
Proof.
  induction ps as [|[k0 v0] ps IH]; cbn.
  - reflexivity.
  - destruct (String.eqb k0 k') eqn:E0; cbn.
    + apply String.eqb_eq in E0 as ->. now destruct (String.eqb k' k).
    + destruct (String.eqb k0 k) eqn:E1.
      * apply String.eqb_eq in E1 as ->. now rewrite String.eqb_sym, E0.
      * exact IH.
Qed.

(** Copying entries into an object: a copied key reads as what was copied
    last under it, any other key as before. *)
Lemma lookup_prop_copy k (src : obj) :
  forall es fm,
    (forall kv, In kv es -> snd kv = lookup_prop (fst kv) src) ->
    lookup_prop k
      (fold_left (fun fm kv => set_prop (fst kv) (snd kv) fm) es fm)
    = if existsb (fun kv => String.eqb (fst kv) k) es then lookup_prop k src
      else lookup_prop k fm.
Proof.
  induction es as [|[k0 v0] es IH]; intros fm Hes; cbn [fold_left existsb].
  - reflexivity.
  - rewrite IH by (intros kv Hkv; apply Hes; now right).
    cbn [fst snd]. rewrite lookup_prop_set_prop.
    destruct (existsb _ es); cbn; [now rewrite orb_true_r|].
    destruct (String.eqb k0 k) eqn:E; cbn; [|reflexivity].
    apply String.eqb_eq in E as <-. apply (Hes (k0, v0)). now left.
Qed.

Lemma lookup_prop_present k (ps : obj) :
  lookup_prop k ps <> VUndef ->
  existsb (fun kv => String.eqb (fst kv) k) ps = true.
Proof.
  induction ps as [|[k0 v0] ps IH]; cbn; [congruence|].
  destruct (String.eqb k0 k); cbn; auto.
Qed.

Lemma existsb_key_map k (f : string * value -> string * value) (ps : obj) :
  (forall kv, fst (f kv) = fst kv) ->
  existsb (fun kv => String.eqb (fst kv) k) (map f ps)
  = existsb (fun kv => String.eqb (fst kv) k) ps.
Proof.
  intros Hf. induction ps as [|kv ps IH]; cbn; [reflexivity|].
  now rewrite Hf, IH.
Qed.

(** After [handleMetaProperty], a property that [meta] defines is in the
    metadata of the module, with the value [meta] gives it. *)
Lemma meta_after_includes filePath meta k v store :
  get meta k = v -> v <> VUndef -> k <> "length" ->
  exists fm, meta_after filePath meta store !! ToString filePath = Some fm
             /\ lookup_prop k fm = v.
Proof.
  intros Hget Hv Hk.
  assert (Hlen : String.eqb k "length" = false) by now apply String.eqb_neq.
  destruct meta as [| | | | |ps|]; cbn [get] in Hget;
    try rewrite Hlen in Hget; try congruence.
  unfold meta_after, merged_meta. cbn [truthy].
  eexists. split; [apply lookup_insert_eq|].
  unfold copy_props, own_entries.
  rewrite (lookup_prop_copy k ps).
  - rewrite existsb_key_map by reflexivity.
    rewrite lookup_prop_present by congruence. exact Hget.
  - intros kv Hkv. apply in_map_iff in Hkv as (kv' & <- & _). reflexivity.
Qed.

Lemma lookup_prop_delete k k' (ps : obj) :
  k <> k' -> lookup_prop k (delete_prop k' ps) = lookup_prop k ps.
Proof.
  intros Hk. induction ps as [|[k0 v0] ps IH]; [reflexivity|].
  cbn [delete_prop lookup_prop].
  destruct (String.eqb k0 k') eqn:E0.
  - apply String.eqb_eq in E0 as ->.
    assert (String.eqb k' k = false) as -> by (apply String.eqb_neq; congruence).
    exact IH.
  - cbn [lookup_prop]. now rewrite IH.
Qed.

Lemma get_delete_member v k k' :
  k <> k' -> get (delete_member v k') k = get v k.
Proof.
  intros Hk. destruct v; try reflexivity. cbn. now apply lookup_prop_delete.
Qed.

Lemma is_absent_delete_member v k :
  is_absent (delete_member v k) = is_absent v.
Proof. now destruct v. Qed.

(** A hook entry that is a function is called once, with the arguments of
    the dispatch. *)
Lemma _callAsyncHook_function (p : Plugin X) hook f args w r m x :
  execute p hook = EFun f ->
  f args (__meta w, outside w) = (r, (m, x)) ->
  _callAsyncHook p hook args w = (awaited p r, after_call w p hook args m x).
Proof.
  intros He Hf. unfold _callAsyncHook. rewrite He.
  cbn [entry_typeof entry_truthy apply_hook].
  change (String.eqb "function" "string") with false. cbv iota.
  unfold bind, emit. cbn [__meta outside]. now rewrite Hf.
Qed.

Lemma sequential_fold_answer {A} (p : Plugin X) rest hook
    (toArgs : A -> M X (list value)) fromResult acc w args wa hr wb acc' wc :
  toArgs acc w = (Ok args, wa) ->
  _callAsyncHook p hook args wa = (Ok hr, wb) ->
  is_absent hr = false ->
  fromResult hr acc wb = (Ok acc', wc) ->
  sequential_fold (p :: rest) hook toArgs fromResult acc w
  = sequential_fold rest hook toArgs fromResult acc' wc.
Proof.
  intros Ha Hh Habs Hm. cbn [sequential_fold].
  rewrite (bind_Ok _ _ _ _ _ Ha), (bind_Ok _ _ _ _ _ Hh).
  destruct hr; try discriminate; now rewrite (bind_Ok _ _ _ _ _ Hm).
Qed.

(** The merge of a result that carries code and a map. *)
Lemma transform_fromResult_carries container id r c mp input w :
  carries r c mp ->
  transform_fromResult container id r input w
  = (Ok (VObj [("code", c); ("id", VStr id); ("map", mp)]),
     after_merge w id r c mp).
Proof.
  intros (Habs & Hstr & Hc & Hcu & Hm & Hmo & Hmn & Hmt).
  unfold transform_fromResult.
  assert (String.eqb (typeof r) "string" = false) as -> by now apply String.eqb_neq.
  assert (is_absent mp = false) as Hma
    by (destruct mp; cbn in *; try reflexivity; congruence).
  assert (is_null mp = false) as Hmnull
    by (destruct mp; try reflexivity; congruence).
  assert (is_undefined c = false) as Hcu'
    by (destruct c; try reflexivity; congruence).
  rewrite (member_present r "map"), bind_ret by exact Habs.
  rewrite Hm, Hmnull, Hmo. cbn [negb andb String.eqb Ascii.eqb Bool.eqb].
  rewrite (bind_Ok _ _ w false w)
    by (rewrite member_present by exact Hma; unfold bind, ret;
        now rewrite Hmt).
  rewrite (member_present r "meta"), bind_ret by exact Habs.
  rewrite (member_present r "syntheticNamedExports") by exact Habs.
  rewrite (member_present r "code") by exact Habs.
  rewrite (member_present r "map") by exact Habs.
  rewrite Hc, Hm.
  unfold after_merge, meta_after, handleMetaProperty.
  unfold bind, ret, get_meta, put_meta, get_sne, put_sne, get_mapChain,
    put_mapChain.
  cbn. rewrite Hcu'. cbn.
  destruct (truthy (get r "meta")); cbn;
    destruct (truthy (get r "syntheticNamedExports")); cbn;
    try destruct (is_undefined (syntheticNamedExports w)); cbn; reflexivity.
Qed.

(** The merge of a result without code: the accumulator stays, and so
    does the map chain. *)
Lemma transform_fromResult_no_code container id r input w :
  is_absent r = false -> typeof r <> "string" -> get r "code" = VUndef ->
  exists w', transform_fromResult container id r input w = (Ok input, w')
             /\ mapChain w' = mapChain w.
Proof.
  intros Habs Hstr Hc. unfold transform_fromResult.
  assert (String.eqb (typeof r) "string" = false) as -> by now apply String.eqb_neq.
  unfold member at 1. rewrite Habs. unfold bind at 1. unfold ret at 1.
  set (unmapped := if negb (is_null (get r "map"))
                      && String.eqb (typeof (get r "map")) "object"
                   then _ else _).
  assert (Hun : exists b, unmapped w = (Ok b, w)).
  { subst unmapped. destruct (get r "map"); cbn; eauto. }
  destruct Hun as [b Hun]. rewrite (bind_Ok _ _ _ _ _ Hun).
  set (r' := if b then delete_member r "map" else r).
  assert (Habs' : is_absent r' = false).
  { subst r'. destruct b; [now rewrite is_absent_delete_member|exact Habs]. }
  assert (Hc' : get r' "code" = VUndef).
  { subst r'. destruct b; [rewrite get_delete_member by discriminate|]; exact Hc. }
  unfold member. rewrite Habs', Hc'.
  unfold handleMetaProperty, bind, ret, get_meta, put_meta, get_sne, put_sne.
  cbn.
  destruct (truthy (get r' "meta")); cbn;
    destruct (truthy (get r' "syntheticNamedExports")); cbn;
    try destruct (is_undefined (syntheticNamedExports w)); cbn; eauto.
Qed.


(** C4. [transform(code, id)] over the plugins P1 then P2, each answering
    with a result that carries new code and a map, P2's with [meta.x = 1]:
    P2 is given P1's code; the combiner is called once, with the chain of
    exactly the two [{code, map}] entries, P1's first, and with the
    original code and the module id; afterwards the metadata of the module
    has [x: 1].  And merging a result without [code] returns the
    accumulator it was given and leaves the chain as it is. *)
Theorem transform_chains_two_plugins :
  (forall cfg (P1 P2 : Plugin X) f1 f2 code id w
          hr1 r1 c1 mp1 m1 x1 hr2 r2 c2 mp2 m2 x2,
     execute P1 "transform" = EFun f1 ->
     execute P2 "transform" = EFun f2 ->
     f1 [VStr code; VStr id] (__meta w, outside w) = (hr1, (m1, x1)) ->
     awaited P1 hr1 = Ok r1 ->
     carries r1 c1 mp1 ->
     f2 [c1; VStr id] (meta_after (VStr id) (get r1 "meta") m1, x1)
     = (hr2, (m2, x2)) ->
     awaited P2 hr2 = Ok r2 ->
     carries r2 c2 mp2 ->
     get (get r2 "meta") "x" = VNum 1 ->
     let container := mkContainer [P1; P2] cfg in
     let chain := [chain_entry c1 mp1; chain_entry c2 mp2] in
     let r := transform combineSourceMapChainFast container code id w in
     trace (snd r)
     = trace w ++ [ EvInvoke (name P1) "transform" [VStr code; VStr id];
                    EvInvoke (name P2) "transform" [c1; VStr id];
                    EvCombine chain (VStr code) (VStr id) ]
     /\ (exists fm, __meta (snd r) !! id = Some fm
                    /\ lookup_prop "x" fm = VNum 1)
     /\ (exists sne,
           fst r = match combineSourceMapChainFast chain (VStr code)
                           (VStr id) with
                   | Ok m => Ok (VObj [("code", c2); ("map", m);
                                       ("syntheticNamedExports", sne)])
                   | Throw e => Throw e
                   end))
  /\ (forall (container : PluginContainer X) id res input w,
        is_absent res = false -> typeof res <> "string" ->
        get res "code" = VUndef ->
        exists w', transform_fromResult container id res input w
                   = (Ok input, w')
                   /\ mapChain w' = mapChain w).
Proof.
  split; [|intros container id res input w;
            apply transform_fromResult_no_code].
  intros cfg P1 P2 f1 f2 code id w hr1 r1 c1 mp1 m1 x1 hr2 r2 c2 mp2 m2 x2.
  intros He1 He2 Hf1 Ha1 Hc1 Hf2 Ha2 Hc2 Hx container chain r.
  set (wi := transform_entry w code id).
  set (wa := after_merge (after_call wi P1 "transform" [VStr code; VStr id]
                            m1 x1) id r1 c1 mp1).
  set (wb := after_merge (after_call wa P2 "transform" [c1; VStr id] m2 x2)
               id r2 c2 mp2).
  assert (Hdispatch :
    callAsyncSequentialHook container "transform" transform_toArgs
      (transform_fromResult container id)
      (VObj [("code", VStr code); ("id", VStr id); ("map", VNull);
             ("syntheticNamedExports", VBool false)]) wi
    = (Ok (VObj [("code", c2); ("id", VStr id); ("map", mp2)]), wb)).
  { unfold callAsyncSequentialHook.
    etransitivity;
      [exact (sequential_loop_fold "transform" transform_toArgs
                (transform_fromResult container id) [P1; P2] [] _ wi)|].
    rewrite (sequential_fold_answer P1 [P2] "transform" transform_toArgs
               (transform_fromResult container id) _ wi
               [VStr code; VStr id] wi r1
               (after_call wi P1 "transform" [VStr code; VStr id] m1 x1)
               (VObj [("code", c1); ("id", VStr id); ("map", mp1)]) wa);
      [|reflexivity
       |rewrite (_callAsyncHook_function P1 _ f1 _ wi hr1 m1 x1 He1 Hf1);
        now rewrite Ha1
       |apply Hc1
       |apply transform_fromResult_carries; exact Hc1].
    rewrite (sequential_fold_answer P2 [] "transform" transform_toArgs
               (transform_fromResult container id) _ wa
               [c1; VStr id] wa r2
               (after_call wa P2 "transform" [c1; VStr id] m2 x2)
               (VObj [("code", c2); ("id", VStr id); ("map", mp2)]) wb);
      [reflexivity
       |reflexivity
       |rewrite (_callAsyncHook_function P2 _ f2 _ wa hr2 m2 x2 He2 Hf2);
        now rewrite Ha2
       |apply Hc2
       |apply transform_fromResult_carries; exact Hc2]. }
  assert (Hmeta : exists fm, __meta wb !! id = Some fm
                             /\ lookup_prop "x" fm = VNum 1).
  { subst wb. cbn [after_merge __meta after_call].
    apply (meta_after_includes (VStr id) (get r2 "meta") "x" (VNum 1));
      [exact Hx|discriminate|discriminate]. }
  assert (Hr : exists wf sne,
    r = (match combineSourceMapChainFast chain (VStr code) (VStr id) with
         | Ok m => Ok (VObj [("code", c2); ("map", m);
                             ("syntheticNamedExports", sne)])
         | Throw e => Throw e
         end, wf)
    /\ __meta wf = __meta wb
    /\ trace wf = trace wb ++ [EvCombine chain (VStr code) (VStr id)]).
  { subst r. unfold transform.
    do 3 (erewrite bind_Ok by reflexivity).
    rewrite (bind_Ok _ _ _ _ _ Hdispatch).
    do 2 (erewrite bind_Ok by reflexivity).
    change (mapChain wb) with chain.
    unfold bind at 1, computing at 1.
    destruct (combineSourceMapChainFast chain (VStr code) (VStr id)) as [m|e].
    - eexists _, (syntheticNamedExports wb). split; [reflexivity|].
      split; reflexivity.
    - eexists _, VUndef. split; [reflexivity|]. split; reflexivity. }
  destruct Hr as (wf & sne & -> & Hm & Ht). cbn [fst snd].
  split; [|split].
  - rewrite Ht. subst wb wa wi.
    cbn [trace after_merge after_call transform_entry].
    now rewrite <- !app_assoc.
  - now rewrite Hm.
  - now exists sne.
Qed.

End TransformFacts.

(* ================================================================== *)
(** * Properties of the bundle view *)
(* ================================================================== *)

Section BundleViewFacts.

Import BundleView.

Lemma find_app p (l l' : list value) r :
  find p l = Ok r -> r <> VUndef -> find p (l ++ l') = Ok r.
Proof.
  induction l as [|e l IH]; cbn; [congruence|].
  destruct (p e) as [[]|]; auto; discriminate.
Qed.

Lemma find_first p (l : list value) r :
  find p l = Ok r -> r <> VUndef ->
  exists i, l !! i = Some r /\ p r = Ok true
            /\ forall j e, j < i -> l !! j = Some e -> p e = Ok false.
Proof.
  induction l as [|e l IH]; cbn; [congruence|].
  destruct (p e) as [[]|] eqn:Hp; [| |discriminate].
  - intros [= <-] _. exists 0. split; [reflexivity|]. split; [exact Hp|].
    intros j e' Hj. lia.
  - intros Hf Hr. destruct (IH Hf Hr) as (i & Hi & Hpr & Hbefore).
    exists (S i). split; [exact Hi|]. split; [exact Hpr|].
    intros [|j] e' Hj; cbn; [now intros [= <-]|].
    apply Hbefore. lia.
Qed.

(** Whatever a hook body does through the view, the bundle it leaves is
    the bundle it found followed by the records it assigned. *)
Lemma run_view_appends (body : view_program) :
  forall bundle,
    snd (run_view body bundle) = bundle ++ assigned body bundle.
Proof.
  induction body as [r|prop k IH|prop v k IH|k IH]; intros bundle;
    cbn [run_view assigned].
  - now rewrite app_nil_r.
  - apply IH.
  - rewrite IH. unfold proxy_set. now rewrite <- app_assoc.
  - apply IH.
Qed.

(** C10. Through the keyed view of the bundle, an assignment appends the
    assigned record at the end of the sequence, whatever the key and
    whatever records are there: every record keeps its place.  A read is
    the first record of the sequence with that file name, so when a
    record with the file name was there before the assignment, a read of
    that name still returns it: the earliest one.  So a hook body, whatever
    it reads and assigns, leaves the bundle it found followed by the
    records it assigned. *)
Theorem bundle_view_assignment_appends (bundle : list value)
    (prop : string) (v : value) :
  let bundle' := proxy_set bundle prop v in
  bundle' = bundle ++ [v]
  /\ (forall i e, bundle !! i = Some e -> bundle' !! i = Some e)
  /\ bundle' !! length bundle = Some v
  /\ (forall key r,
        proxy_get bundle key = Ok r -> r <> VUndef ->
        proxy_get bundle' key = Ok r
        /\ exists i, bundle !! i = Some r
                     /\ get r "fileName" = VStr key
                     /\ forall j e, j < i -> bundle !! j = Some e ->
                                    get e "fileName" <> VStr key)
  /\ forall body : view_program,
       snd (run_view body bundle) = bundle ++ assigned body bundle.
Proof.
  intros bundle'. subst bundle'. unfold proxy_set.
  split; [reflexivity|]. split; [|split; [|split]].
  - intros i e Hi. now apply lookup_app_l_Some.
  - apply list_lookup_middle. reflexivity.
  - intros key r Hget Hr. split; [now apply find_app|].
    destruct (find_first _ _ _ Hget Hr) as (i & Hi & Hp & Hbefore).
    exists i. split; [exact Hi|]. split.
    + unfold has_fileName in Hp. destruct (is_absent r); [discriminate|].
      destruct (get r "fileName"); try discriminate.
      injection Hp as Hp. now apply String.eqb_eq in Hp as ->.
    + intros j e Hj He Hname. specialize (Hbefore j e Hj He).
      unfold has_fileName in Hbefore.
      destruct (is_absent e); [discriminate|].
      rewrite Hname, String.eqb_refl in Hbefore. discriminate.
  - intros body. apply run_view_appends.
Qed.

End BundleViewFacts.

(* ================================================================== *)
(** * Properties of the syntax transform *)
(* ================================================================== *)

Section Es2cjsFacts.

Import Es2cjs.

Variable acorn_parse : string -> parse_result.
Variable MagicString : Type.
Variable MagicString_new : string -> MagicString.
Variable overwrite : MagicString -> nat -> nat -> string -> MagicString.
Variable appendRight : MagicString -> nat -> string -> MagicString.
Variable toString : MagicString -> string.

Local Abbreviation Response := (Response MagicString).
Local Abbreviation rewrite_node := (rewrite_node MagicString overwrite appendRight).
Local Abbreviation rewrite_loop := (rewrite_loop MagicString overwrite appendRight).
Local Abbreviation es2cjs :=
  (es2cjs acorn_parse MagicString MagicString_new overwrite appendRight
     toString).

Implicit Types (context : option Options) (n : node) (response : Response).

Lemma resolveImport_dependencies context response n src b :
  n_source n = Some src ->
  isExternal context src = Ok b ->
  exists t a response',
    resolveImport MagicString context response n = Ok (t, a, response')
    /\ dependencies _ response'
       = dependencies _ response ++ (if b then [] else [src])
    /\ (b = false ->
        a = "_i" +:+ pretty (length (dependencies _ response))
        /\ t = internal_require (length (dependencies _ response)) n).
Proof.
  intros Hs He. unfold resolveImport, source_value. rewrite Hs.
  cbn [obind]. rewrite He. cbn [obind]. destruct b.
  - unfold resolveExternalImport.
    destruct context as [options|]; [|discriminate].
    unfold source_value. rewrite Hs.
    destruct (nonempty_specifiers n || is_ExportAll n); cbn [obind];
      (do 3 eexists; split; [reflexivity|]; split;
       [now rewrite app_nil_r|discriminate]).
  - unfold resolveInternalImport, source_value. rewrite Hs. cbn [obind].
    do 3 eexists. split; [reflexivity|]. split; [reflexivity|].
    intros _. split; reflexivity.
Qed.

Lemma rewrite_node_dependencies context response n :
  well_formed context n = true ->
  exists response',
    rewrite_node context response n = Ok response'
    /\ dependencies _ response'
       = dependencies _ response ++ added context n.
Proof.
  unfold well_formed, added, internal_source, resolves_import, rewrite_node.
  destruct (n_type n) eqn:Ht.
  - destruct (n_source n) as [src|] eqn:Hs; [|discriminate].
    destruct (isExternal context src) as [b|] eqn:He; [|discriminate].
    intros _.
    destruct (resolveImport_dependencies context response n src b Hs He)
      as (t & a & r' & -> & Hd & _).
    cbn [obind]. eexists. split; [reflexivity|].
    cbn [with_output dependencies]. rewrite Hd. now destruct b.
  - destruct (n_declaration n) as [d|]; [|discriminate]. intros _.
    destruct (d_id d); eexists; (split; [reflexivity|]);
      cbn [with_output dependencies]; now rewrite app_nil_r.
  - destruct (n_declaration n) as [d|].
    + intros _.
      destruct (d_id d), (d_declarations d); eexists;
        (split; [reflexivity|]);
        cbn [with_output dependencies]; now rewrite app_nil_r.
    + destruct (n_specifiers n) as [specs|].
      * destruct (n_source n) as [src|] eqn:Hs.
        -- destruct (isExternal context src) as [b|] eqn:He; [|discriminate].
           intros _.
           destruct (resolveImport_dependencies context response n src b Hs He)
             as (t & a & r' & -> & Hd & _).
           cbn [obind]. eexists. split; [reflexivity|].
           cbn [with_output dependencies]. rewrite Hd. now destruct b.
        -- intros _. cbn [obind]. eexists. split; [reflexivity|].
           cbn [with_output dependencies]. now rewrite app_nil_r.
      * intros _. eexists. split; [reflexivity|]. now rewrite app_nil_r.
  - destruct (n_source n) as [src|] eqn:Hs; [|discriminate].
    destruct (isExternal context src) as [b|] eqn:He; [|discriminate].
    intros _.
    destruct (resolveImport_dependencies context response n src b Hs He)
      as (t & a & r' & -> & Hd & _).
    cbn [obind]. eexists. split; [reflexivity|].
    cbn [with_output dependencies]. rewrite Hd. now destruct b.
  - intros _. eexists. split; [reflexivity|]. now rewrite app_nil_r.
Qed.

Lemma internal_sources_cons context n rest :
  internal_sources context (n :: rest)
  = added context n ++ internal_sources context rest.
Proof.
  unfold internal_sources, added. cbn [omap list_omap].
  now destruct (internal_source context n).
Qed.

Lemma internal_sources_app context pre post :
  internal_sources context (pre ++ post)
  = internal_sources context pre ++ internal_sources context post.
Proof.
  induction pre as [|n pre IH]; [reflexivity|].
  cbn [app]. now rewrite !internal_sources_cons, IH, app_assoc.
Qed.

(** The loop, run over the statements [rest] that follow [done], adds
    their internal specifiers in the order of the statements. *)
Lemma rewrite_loop_dependencies context rest :
  forall done tail response,
    forallb (well_formed context) rest = true ->
    exists response',
      rewrite_loop context (done ++ rest ++ tail) (length rest)
        (length done) response = Ok response'
      /\ dependencies _ response'
         = dependencies _ response ++ internal_sources context rest.
Proof.
  induction rest as [|n rest IH]; intros done tail response Hwf.
  - exists response. split; [reflexivity|]. now rewrite app_nil_r.
  - cbn [forallb] in Hwf. apply andb_true_iff in Hwf as [Hn Hrest].
    cbn [length Es2cjs.rewrite_loop app]. rewrite lookup_at_length.
    destruct (rewrite_node_dependencies context response n Hn)
      as (r1 & -> & Hd1).
    cbn [obind].
    destruct (IH (done ++ [n]) tail r1 Hrest) as (r2 & Hloop & Hd2).
    rewrite <- app_assoc, length_app in Hloop. cbn [app length] in Hloop.
    rewrite Nat.add_1_r in Hloop.
    exists r2. split; [exact Hloop|].
    now rewrite Hd2, Hd1, internal_sources_cons, app_assoc.
Qed.

(** One more turn of the loop is a turn of its body on the state the
    earlier turns left. *)
Lemma rewrite_loop_S context body k i response :
  rewrite_loop context body (S k) i response
  = match body !! i with
    | None => Ok response
    | Some n =>
        obind (rewrite_node context response n)
          (fun response => rewrite_loop context body k (S i) response)
    end.
Proof. reflexivity. Qed.

Lemma rewrite_loop_snoc context rest :
  forall done n tail response,
    rewrite_loop context (done ++ rest ++ n :: tail) (S (length rest))
      (length done) response
    = obind (rewrite_loop context (done ++ rest ++ n :: tail) (length rest)
               (length done) response)
        (fun response => rewrite_node context response n).
Proof.
  induction rest as [|m rest IH]; intros done n tail response.
  - cbn [app length]. rewrite rewrite_loop_S, lookup_at_length.
    cbn [Es2cjs.rewrite_loop obind].
    now destruct (rewrite_node context response n).
  - cbn [length]. rewrite (rewrite_loop_S context _ (S (length rest))).
    rewrite (rewrite_loop_S context _ (length rest)).
    cbn [app]. rewrite lookup_at_length.
    destruct (rewrite_node context response m) as [r1|e]; [|reflexivity].
    cbn [obind].
    specialize (IH (done ++ [m]) n tail r1).
    rewrite <- app_assoc, length_app in IH. cbn [app length] in IH.
    rewrite Nat.add_1_r in IH. exact IH.
Qed.

(** An import of an internal module: the require text, the alias, and the
    state with the specifier pushed and the edit buffer untouched. *)
Lemma resolveImport_internal context response n src :
  n_source n = Some src ->
  isExternal context src = Ok false ->
  resolveImport MagicString context response n
  = Ok (internal_require (length (dependencies _ response)) n,
        "_i" +:+ pretty (length (dependencies _ response)),
        mkResponse _ (output _ response)
          (dependencies _ response ++ [src])).
Proof.
  intros Hs He. unfold resolveImport, source_value. rewrite Hs.
  cbn [obind]. rewrite He. cbn [obind].
  unfold resolveInternalImport, source_value. rewrite Hs. reflexivity.
Qed.

(** C5. For a source that parses into well-formed statements, the loop
    over the statements ends in a state [final]; the result carries the
    text of the edit buffer of [final] and, as its dependency list, the
    internal specifiers in the order their statements are met.  When the
    loop meets a statement [n] that imports the internal module [src],
    after the statements [pre], the dependencies so far are those of
    [pre]; with [k] their number, [n] is rewritten to a require of
    placeholder [k] bound to the alias [_ik], followed by the bindings of
    its specifiers to the alias, [src] is dependency [k] of the result,
    and, for an import declaration, the turn of the loop overwrites the
    span of [n] in the edit buffer with that text.  In particular, for a
    module that is the one statement [import local from src], with [src]
    internal, the result is the source with the span of the statement
    overwritten by [var _i0 = require(__nollup__0);var local = _i0.default;]
    and the dependency list [[src]]. *)
Theorem es2cjs_dependencies_in_order input context body :
  acorn_parse input = Parsed body ->
  forallb (well_formed context) body = true ->
  (exists final,
     rewrite_loop context body (length body) 0
       (mkResponse _ (MagicString_new input) []) = Ok final
     /\ dependencies _ final = internal_sources context body
     /\ es2cjs input context
        = Ok (mkResult (toString (output _ final))
                (internal_sources context body)))
  /\ (forall pre n post src,
       body = pre ++ n :: post ->
       internal_source context n = Some src ->
       let k := length (internal_sources context pre) in
       internal_sources context body !! k = Some src
       /\ exists response response',
            rewrite_loop context body (length pre) 0
              (mkResponse _ (MagicString_new input) []) = Ok response
            /\ dependencies _ response = internal_sources context pre
            /\ resolveImport MagicString context response n
               = Ok (internal_require k n, "_i" +:+ pretty k, response')
            /\ dependencies _ response'
               = internal_sources context pre ++ [src]
            /\ output _ response' = output _ response
            /\ (n_type n = ImportDeclaration ->
                rewrite_loop context body (S (length pre)) 0
                  (mkResponse _ (MagicString_new input) [])
                = Ok (mkResponse _
                        (overwrite (output _ response) (n_start n) (n_end n)
                           (internal_require k n))
                        (internal_sources context pre ++ [src]))))
  /\ (forall start stop src local,
       body = [mkNode ImportDeclaration start stop (Some src)
                 (Some [ImportDefaultSpecifier local]) None] ->
       isExternal context src = Ok false ->
       es2cjs input context
       = Ok (mkResult
               (toString
                  (overwrite (MagicString_new input) start stop
                     ("var _i0 = require(__nollup__0);var " +:+ local
                      +:+ " = _i0.default;")))
               [src])).
Proof.
  intros Hparse Hwf. split; [|split].
  - unfold Es2cjs.es2cjs. rewrite Hparse.
    destruct (rewrite_loop_dependencies context body [] []
                (mkResponse _ (MagicString_new input) []) Hwf)
      as (r & Hloop & Hd).
    cbn [app length] in Hloop. rewrite app_nil_r in Hloop.
    cbn [dependencies app] in Hd.
    exists r. split; [exact Hloop|]. split; [exact Hd|].
    rewrite Hloop. cbn [obind]. now rewrite Hd.
  - intros pre n post src -> Hsrc k.
    rewrite forallb_app in Hwf. apply andb_true_iff in Hwf as [Hpre Hn].
    split.
    + rewrite internal_sources_app, internal_sources_cons.
      unfold added. rewrite Hsrc. subst k. apply lookup_at_length.
    + destruct (rewrite_loop_dependencies context pre [] (n :: post)
                  (mkResponse _ (MagicString_new input) []) Hpre)
        as (r & Hloop & Hd).
      cbn [app length dependencies] in Hloop, Hd.
      unfold internal_source in Hsrc.
      destruct (resolves_import n); [|discriminate].
      destruct (n_source n) as [s|] eqn:Hs; [|discriminate].
      destruct (isExternal context s) as [[|]|] eqn:He; try discriminate.
      injection Hsrc as ->.
      pose proof (resolveImport_internal context r n src Hs He) as Hres.
      rewrite Hd in Hres. fold k in Hres.
      exists r, (mkResponse _ (output _ r)
                   (internal_sources context pre ++ [src])).
      split; [exact Hloop|]. split; [exact Hd|]. split; [exact Hres|].
      split; [reflexivity|]. split; [reflexivity|].
      intros Ht.
      pose proof (rewrite_loop_snoc context pre [] n post
                    (mkResponse _ (MagicString_new input) [])) as Hstep.
      cbn [app length] in Hstep. rewrite Hstep, Hloop. cbn [obind].
      unfold Es2cjs.rewrite_node. rewrite Ht, Hres. reflexivity.
  - intros start stop src local -> Hext.
    unfold Es2cjs.es2cjs. rewrite Hparse.
    cbn [length]. rewrite rewrite_loop_S. cbn [lookup list_lookup].
    unfold Es2cjs.rewrite_node. cbn [n_type].
    erewrite resolveImport_internal by (reflexivity || exact Hext).
    reflexivity.
Qed.

(** C9. When the parser rejects the source, the transform raises a text
    of three lines and returns nothing: the name and message of the parse
    error; the source line of the error, after four spaces; and a caret
    after four spaces and [column - 1] more.  With columns counted from 0,
    as the parser counts them, the caret is under the column before the
    failing one (under it only for column 0). *)
Theorem es2cjs_parse_error input context name message line column :
  acorn_parse input = ParseError name message line column ->
  es2cjs input context
  = Throw (VStr ((name +:+ ": " +:+ message) +:+ LF
                 +:+ ("    " +:+ match line with
                                 | O => "undefined"
                                 | S l => str_or_undefined
                                            (split_lines input !! l)
                                 end) +:+ LF
                 +:+ "    " +:+ spaces (column - 1) +:+ "^")).
Proof.
  intros Hparse. unfold Es2cjs.es2cjs. rewrite Hparse.
  unfold parse_diagnostic, padStart. cbn [join_with String.length].
  destruct line; reflexivity.
Qed.

End Es2cjsFacts.

(* ================================================================== *)
(** * The properties at concrete plugins and sources *)
(* ================================================================== *)

Section Instances.

Import Examples.

(** P1 declines, P2 answers X, P3 would answer Y: the result is X, and the
    trace has the calls of P1 and P2 only. *)
Lemma callAsyncFirstHook_first_opinion_witness :
  callAsyncFirstHook (container first_plugins) "resolveId"
    [VStr "./x"; VUndef] w0
  = (Ok (VStr "X"),
     traced [ EvInvoke "P1" "resolveId" [VStr "./x"; VUndef];
              EvInvoke "P2" "resolveId" [VStr "./x"; VUndef] ]).
Proof.
  apply (callAsyncFirstHook_first_opinion None [first_P1] first_P2 [first_P3]
           "resolveId" [VStr "./x"; VUndef] w0
           (traced [EvInvoke "P1" "resolveId" [VStr "./x"; VUndef]])).
  - eapply declined_cons; [reflexivity|reflexivity|apply declined_nil].
  - reflexivity.
  - discriminate.
  - discriminate.
Defined.

(** An empty string and [0] are opinions: async-first dispatch returns
    them and does not ask the next plugin. *)
Example callAsyncFirstHook_empty_string :
  callAsyncFirstHook (container (answering_first (VStr EmptyString)))
    "resolveId" [] w0
  = (Ok (VStr EmptyString), traced [EvInvoke "P1" "resolveId" []]).
Proof. reflexivity. Qed.

Example callAsyncFirstHook_zero :
  callAsyncFirstHook (container (answering_first (VNum 0))) "resolveId" [] w0
  = (Ok (VNum 0), traced [EvInvoke "P1" "resolveId" []]).
Proof. reflexivity. Qed.

(** A body that assigns under the name of the first chunk and reads the
    name back gets the first chunk, and leaves three records. *)
Example reassigning_body_reads_first :
  BundleView.run_view reassigning_body bundle0
  = (Returns (chunk "main.js" "m"),
     bundle0 ++ [VObj [("fileName", VStr "main.js"); ("code", VStr "new")]]).
Proof. reflexivity. Qed.

(** Plugins answering a, nothing, b: the banner is a, an empty line, b;
    not a and b on two lines. *)
Lemma banner_absent_result_counterexample :
  fst (banner (container banner_plugins) w0)
  = Ok (VStr ("a" +:+ LF +:+ LF +:+ "b"))
  /\ fst (banner (container banner_plugins) w0)
     <> Ok (VStr ("a" +:+ LF +:+ "b")).
Proof. split; [reflexivity|]. vm_compute. discriminate. Qed.

Lemma joined_hooks_keep_every_result_witness :
  banner (container banner_plugins) w0
  = (Ok (VStr ("a" +:+ LF +:+ LF +:+ "b")),
     traced [ EvInvoke "P1" "banner" []; EvInvoke "P2" "banner" [];
              EvInvoke "P3" "banner" [] ])
  /\ length [VStr "a"; VUndef; VStr "b"] = length banner_plugins.
Proof.
  apply (joined_hooks_keep_every_result None banner_plugins w0
           [VStr "a"; VUndef; VStr "b"] _ "banner" banner).
  - left. reflexivity.
  - eapply answered_cons; [reflexivity|].
    eapply answered_cons; [reflexivity|].
    eapply answered_cons; [reflexivity|].
    apply answered_nil.
Defined.

(** A literal number as hook entry: the dispatch raises a TypeError. *)
Lemma _callAsyncHook_literal_counterexample :
  _callAsyncHook literal_number_plugin "banner" [] w0
  = (Throw (error_obj "TypeError"
              "plugin.execute[hook].apply is not a function"), w0)
  /\ fst (_callAsyncHook literal_number_plugin "banner" [] w0)
     <> Ok (VNum 5).
Proof. split; [reflexivity|]. vm_compute. discriminate. Qed.

Lemma _callAsyncHook_literal_string_witness :
  _callAsyncHook literal_string_plugin "banner" [] w0
  = (Ok (VStr "/* banner */"), w0)
  /\ callAsyncFirstHook (container [literal_string_plugin]) "banner" [] w0
     = (Ok (VStr "/* banner */"), w0)
  /\ callAsyncParallelHook (container [literal_string_plugin]) "banner" [] w0
     = (Ok [VStr "/* banner */"], w0)
  /\ forall A (toArgs : A -> M unit (list value)) fromResult (start : A),
       toArgs start w0 = (Ok [], w0) ->
       callAsyncSequentialHook (container [literal_string_plugin]) "banner"
         toArgs fromResult start w0
       = fromResult (VStr "/* banner */") start w0.
Proof.
  apply (_callAsyncHook_literal_string None literal_string_plugin "banner"
           [] w0 (VStr "/* banner */")).
  left. exists "/* banner */". split; reflexivity.
Defined.

(** P1 then P2 transform a module; P2 sets [meta.x]. *)
Lemma transform_chains_two_plugins_witness :
  let r := transform combine (container transform_plugins) "src" "/m.js" w0 in
  trace (snd r)
  = [ EvInvoke "P1" "transform" [VStr "src"; VStr "/m.js"];
      EvInvoke "P2" "transform" [VStr "one"; VStr "/m.js"];
      EvCombine
        [ chain_entry (VStr "one") (VObj [("mappings", VStr "AAAA")]);
          chain_entry (VStr "two") (VObj [("mappings", VStr "CAAC")]) ]
        (VStr "src") (VStr "/m.js") ]
  /\ exists fm, __meta (snd r) !! "/m.js" = Some fm
                /\ lookup_prop "x" fm = VNum 1.
Proof.
  pose proof (proj1 (transform_chains_two_plugins combine) None
                transform_P1 transform_P2
                (returning transform_r1) (returning transform_r2)
                "src" "/m.js" w0
                (Returns transform_r1) transform_r1 (VStr "one")
                (VObj [("mappings", VStr "AAAA")]) ∅ tt
                (Returns transform_r2) transform_r2 (VStr "two")
                (VObj [("mappings", VStr "CAAC")]) ∅ tt) as H.
  destruct H as (Ht & Hm & _).
  - reflexivity.
  - reflexivity.
  - reflexivity.
  - reflexivity.
  - unfold carries. repeat split; (reflexivity || discriminate).
  - reflexivity.
  - reflexivity.
  - unfold carries. repeat split; (reflexivity || discriminate).
  - reflexivity.
  - split; [exact Ht|exact Hm].
Defined.

(** A specifier of the external list. *)
Lemma resolveId_external_witness :
  let r := resolveId isAbsolute normalize resolve cwd resolvePath
             (mkContainer [] (Some external_config)) "jquery" VUndef w0 in
  fst r = Ok (VObj [("id", VStr "jquery"); ("external", VBool true)])
  /\ __meta (snd r) = __meta w0
  /\ trace (snd r) = trace w0.
Proof.
  apply (resolveId_external isAbsolute normalize resolve cwd resolvePath
           (mkContainer [] (Some external_config)) "jquery" VUndef w0
           VUndef w0).
  - reflexivity.
  - right. exists tt. split; [apply list_elem_of_here|reflexivity].
Defined.

(** A [load] hook answering [{code: '', meta: {x: 1}}]: the object is
    dropped, its [meta] is not merged, and the file is read. *)
Lemma load_by_hook_result_witness :
  load isAbsolute resolve cwd readFileSync
    (container (load_plugins EmptyString)) "/a.js" VUndef w0
  = (Ok (VObj [("code", VStr "contents of /a.js")]),
     with_event (traced [EvInvoke "P1" "load" [VStr "/a.js"; VUndef]])
       (EvReadFile "/a.js")).
Proof.
  apply (load_by_hook_result isAbsolute resolve cwd readFileSync
           (container (load_plugins EmptyString)) "/a.js" VUndef w0
           (VObj [("code", VStr EmptyString); ("meta", VObj [("x", VNum 1)])])
           (traced [EvInvoke "P1" "load" [VStr "/a.js"; VUndef]])).
  reflexivity.
Defined.

(** The same call in full: the hook had an opinion, the result is not
    that object, the metadata of the module are not set, and the disk was
    read. *)
Example load_empty_code_object :
  let hr := VObj [("code", VStr EmptyString); ("meta", VObj [("x", VNum 1)])] in
  let r := load isAbsolute resolve cwd readFileSync
             (container (load_plugins EmptyString)) "/a.js" VUndef w0 in
  callAsyncFirstHook (container (load_plugins EmptyString)) "load"
    [VStr "/a.js"; VUndef] w0
  = (Ok hr, traced [EvInvoke "P1" "load" [VStr "/a.js"; VUndef]])
  /\ fst r <> Ok hr
  /\ fst r = Ok (VObj [("code", VStr "contents of /a.js")])
  /\ __meta (snd r) !! "/a.js" = None
  /\ trace (snd r) = [ EvInvoke "P1" "load" [VStr "/a.js"; VUndef];
                       EvReadFile "/a.js" ].
Proof.
  cbv zeta. split; [reflexivity|]. split; [vm_compute; discriminate|].
  split; [reflexivity|]. split; reflexivity.
Qed.

(** The empty string given as a string is kept, and the disk is not
    read. *)
Example load_empty_code_string :
  load isAbsolute resolve cwd readFileSync
    (container [plugin "P1" "load" (EFun (returning (VStr EmptyString)))])
    "/a.js" VUndef w0
  = (Ok (VObj [("code", VStr EmptyString)]),
     traced [EvInvoke "P1" "load" [VStr "/a.js"; VUndef]]).
Proof. reflexivity. Qed.

(** A [load] hook answering [{code: 'x', meta: {x: 1}}]: the object is
    returned and its [meta] merged. *)
Example load_object_with_code :
  load isAbsolute resolve cwd readFileSync (container (load_plugins "x"))
    "/a.js" VUndef w0
  = (Ok (VObj [("code", VStr "x"); ("meta", VObj [("x", VNum 1)])]),
     with_meta (traced [EvInvoke "P1" "load" [VStr "/a.js"; VUndef]])
       {["/a.js" := [("x", VNum 1)]]}).
Proof. reflexivity. Qed.

(** Assigning a second record under the name of the first. *)
Lemma bundle_view_assignment_appends_witness :
  let bundle' := BundleView.proxy_set bundle0 "main.js" (chunk "main.js" "new") in
  bundle' = bundle0 ++ [chunk "main.js" "new"]
  /\ BundleView.proxy_get bundle' "main.js" = Ok (chunk "main.js" "m").
Proof.
  pose proof (bundle_view_assignment_appends bundle0 "main.js"
                (chunk "main.js" "new")) as H.
  destruct H as (Happ & _ & _ & Hget & _).
  split; [exact Happ|].
  apply (Hget "main.js" (chunk "main.js" "m")); [reflexivity|discriminate].
Defined.

(** [import a from "./m"] as the first dependency of a module: the
    rewritten text and the dependency list. *)
Lemma es2cjs_dependencies_in_order_witness :
  Examples.es2cjs import_source None
  = Ok (Es2cjs.mkResult
          "var _i0 = require(__nollup__0);var a = _i0.default;" ["./m"]).
Proof.
  exact (proj2 (proj2 (es2cjs_dependencies_in_order parse buffer buffer_new
                         buffer_overwrite buffer_appendRight buffer_toString
                         import_source None [import_node] eq_refl eq_refl))
           0 19 "./m" "a" eq_refl eq_refl).
Defined.

(** Two imports of internal modules take the placeholders 0 and 1 in the
    order of their statements. *)
Example es2cjs_two_imports :
  Examples.es2cjs two_imports_source None
  = Ok (Es2cjs.mkResult
          ("var _i0 = require(__nollup__0);var a = _i0.default;" +:+ LF
           +:+ "var _i1 = require(__nollup__1);var b = _i1.default;")
          ["./m"; "./n"]).
Proof. reflexivity. Qed.

(** [let x = ;] fails at line 1, column 8, the [;]: the caret is under
    column 7, the blank before it. *)
Lemma es2cjs_parse_error_witness :
  Examples.es2cjs bad_source None
  = Throw (VStr ("SyntaxError: Unexpected token (1:8)" +:+ LF
                 +:+ "    let x = ;" +:+ LF
                 +:+ "           ^")).
Proof.
  apply (es2cjs_parse_error parse buffer buffer_new buffer_overwrite
           buffer_appendRight buffer_toString bad_source None
           "SyntaxError" "Unexpected token (1:8)" 1 8).
  reflexivity.
Defined.

End Instances.

(* ================================================================== *)
(** * Further properties of the calling conventions *)
(* ================================================================== *)

Section DispatchFacts.

Context {X : Type}.
Implicit Types (p : Plugin X) (w : world X) (hook : string)
  (args : list value) (ps : list (Plugin X)).

Lemma invocations_cons hook args p ps :
  invocations hook args (p :: ps)
  = invocations hook args [p] ++ invocations hook args ps.
Proof. unfold invocations. cbn [flat_map]. now rewrite app_nil_r. Qed.

Lemma invocations_app hook args ps qs :
  invocations hook args (ps ++ qs)
  = invocations hook args ps ++ invocations hook args qs.
Proof. unfold invocations. apply flat_map_app. Qed.

(** What a hook call may change: the metadata, the outside state and the
    trace, which gets the call when the entry is a function. *)
Lemma _callAsyncHook_frame p hook args w :
  let w' := snd (_callAsyncHook p hook args w) in
  trace w' = trace w ++ invocations hook args [p]
  /\ __currentMapChain w' = __currentMapChain w
  /\ __currentOriginalCode w' = __currentOriginalCode w
  /\ __currentModuleId w' = __currentModuleId w
  /\ mapChain w' = mapChain w
  /\ syntheticNamedExports w' = syntheticNamedExports w.
Proof.
  unfold _callAsyncHook, invocations. cbn [flat_map].
  destruct (execute p hook) as [|v|f]; cbn [entry_typeof entry_truthy].
  - cbn. rewrite app_nil_r. auto 10.
  - destruct (String.eqb (typeof v) "string"); [|destruct (truthy v)];
      cbn; rewrite app_nil_r; auto 10.
  - change (String.eqb "function" "string") with false. cbv iota.
    cbn [apply_hook]. unfold bind, emit.
    destruct (f args _) as [r [m x]]. cbn. auto 10.
Qed.

Lemma parallel_loop_trace hook args rest :
  forall done collected w,
    trace (snd (callAsyncParallelHook_loop (done ++ rest) hook args
                  (length rest) (length done) collected w))
    = trace w ++ invocations hook args rest.
Proof.
  induction rest as [|p rest IH]; intros done collected w.
  - cbn. now rewrite app_nil_r.
  - cbn [length callAsyncParallelHook_loop]. rewrite lookup_at_length.
    unfold bind at 1, spawn.
    pose proof (_callAsyncHook_frame p hook args w) as (Ht & _).
    destruct (_callAsyncHook p hook args w) as [r w1]. cbn [snd] in Ht.
    specialize (IH (done ++ [p]) (collected ++ [r]) w1).
    rewrite <- app_assoc, length_app in IH. cbn [app length] in IH.
    rewrite Nat.add_1_r in IH.
    rewrite IH, Ht, (invocations_cons _ _ p rest).
    now rewrite <- app_assoc.
Qed.

Lemma first_loop_trace hook args rest :
  forall done w,
    exists k,
      k <= length rest
      /\ trace (snd (callAsyncFirstHook_loop (done ++ rest) hook args
                       (length rest) (length done) w))
         = trace w ++ invocations hook args (take k rest).
Proof.
  induction rest as [|p rest IH]; intros done w.
  - exists 0. cbn. now rewrite app_nil_r.
  - cbn [length callAsyncFirstHook_loop]. rewrite lookup_at_length.
    pose proof (_callAsyncHook_frame p hook args w) as (Ht & _).
    unfold bind at 1.
    destruct (_callAsyncHook p hook args w) as [[hr|e] w1]; cbn [snd] in Ht.
    + destruct (is_absent hr); cbn [negb].
      * destruct (IH (done ++ [p]) w1) as (k & Hk & Hk').
        rewrite <- app_assoc, length_app in Hk'. cbn [app length] in Hk'.
        rewrite Nat.add_1_r in Hk'.
        exists (S k). split; [lia|].
        rewrite Hk', Ht. cbn [take].
        rewrite (invocations_cons _ _ p (take k rest)).
        now rewrite <- app_assoc.
      * exists 1. split; [lia|]. cbn [take snd ret].
        now rewrite take_0.
    + exists 1. split; [lia|]. cbn [take snd]. now rewrite take_0.
Qed.

(** X1. Async-parallel dispatch starts the hook of every plugin, in
    plugin order and once each, also when hooks raise: a raise does not
    stop the later plugins from being called.  The lifecycle methods
    [buildStart], [buildEnd], [renderStart] and [renderError] call their
    hook this way. *)
Theorem callAsyncParallelHook_calls_every_plugin
    (container : PluginContainer X) hook args w :
  trace (snd (callAsyncParallelHook container hook args w))
  = trace w ++ invocations hook args (__plugins container)
  /\ trace (snd (notify container hook args w))
     = trace w ++ invocations hook args (__plugins container).
Proof.
  assert (H : trace (snd (callAsyncParallelHook container hook args w))
              = trace w ++ invocations hook args (__plugins container)).
  { unfold callAsyncParallelHook.
    pose proof (parallel_loop_trace hook args (__plugins container) [] [] w)
      as Hl.
    cbn [app length] in Hl. unfold bind.
    destruct (callAsyncParallelHook_loop _ _ _ _ _ _ _) as [[rs|e] w1];
      exact Hl. }
  split; [exact H|].
  unfold notify, bind.
  destruct (callAsyncParallelHook container hook args w) as [[rs|e] w1];
    exact H.
Qed.

(** X2. Async-first dispatch calls the plugins in registration order, each
    at most once, and stops somewhere: the calls it made are those of a
    prefix of the plugin list, whatever the hooks answer or raise. *)
Theorem callAsyncFirstHook_calls_a_prefix
    (container : PluginContainer X) hook args w :
  exists k,
    k <= length (__plugins container)
    /\ trace (snd (callAsyncFirstHook container hook args w))
       = trace w ++ invocations hook args (take k (__plugins container)).
Proof. apply (first_loop_trace hook args (__plugins container) []). Qed.

End DispatchFacts.

Section SyncFacts.

Context {X : Type}.
Variable output_format : Config X -> outcome value.
Implicit Types (p : Plugin X) (w : world X) (hook : string)
  (args : list value).

(** X3. On the sync path a hook entry that is a literal string is not
    returned: a non-empty one is called like a function, which raises a
    TypeError and aborts sync-first dispatch at that plugin, and an empty
    one counts as no hook.  (The async path returns either as it is.) *)
Theorem _callSyncHook_literal_string cfg p post hook args w s :
  execute p hook = ELit (VStr s) ->
  _callSyncHook p hook args w
  = (if String.eqb s EmptyString then Ok (Plain VUndef)
     else Throw (error_obj "TypeError"
                   "plugin.execute[hook].apply is not a function"), w)
  /\ _callAsyncHook p hook args w = (Ok (VStr s), w)
  /\ (s <> EmptyString ->
      callSyncFirstHook (mkContainer (p :: post) cfg) hook args w
      = (Throw (error_obj "TypeError"
                  "plugin.execute[hook].apply is not a function"), w)).
Proof.
  intros He.
  assert (Hs : _callSyncHook p hook args w
               = (if String.eqb s EmptyString then Ok (Plain VUndef)
                  else Throw (error_obj "TypeError"
                     "plugin.execute[hook].apply is not a function"), w)).
  { unfold _callSyncHook. rewrite He. cbn [entry_truthy truthy].
    destruct (String.eqb s EmptyString); reflexivity. }
  split; [exact Hs|]. split.
  - unfold _callAsyncHook. now rewrite He.
  - intros Hne. apply String.eqb_neq in Hne. rewrite Hne in Hs.
    unfold callSyncFirstHook.
    cbn [__plugins length callSyncFirstHook_loop lookup list_lookup].
    unfold bind. now rewrite Hs.
Qed.

(** X4. Sync-first dispatch does not await: a promise returned by the
    hook of a plugin is itself the result, as an opinion, whatever it
    would settle to, and the plugins after it are not asked. *)
Theorem callSyncFirstHook_returns_promise cfg p post hook args w f s m x :
  execute p hook = EFun f ->
  f args (__meta w, outside w) = (Promised s, (m, x)) ->
  callSyncFirstHook (mkContainer (p :: post) cfg) hook args w
  = (Ok (Pending s), after_call w p hook args m x).
Proof.
  intros He Hf. unfold callSyncFirstHook.
  cbn [__plugins length callSyncFirstHook_loop lookup list_lookup].
  unfold _callSyncHook. rewrite He. cbn [entry_truthy apply_hook_sync].
  unfold bind, emit. cbn [__meta outside]. now rewrite Hf.
Qed.

Lemma prefix_get (pre s : string) :
  String.prefix pre s = true ->
  forall n c, String.get n pre = Some c -> String.get n s = Some c.
Proof.
  revert s. induction pre as [|a pre IH]; intros s Hp n c Hg.
  - destruct n; discriminate.
  - destruct s as [|b s]; [discriminate|]. cbn [String.prefix] in Hp.
    destruct (Ascii.ascii_dec a b) as [->|]; [|discriminate].
    destruct n; [exact Hg|]. cbn [String.get] in *. now apply (IH s).
Qed.

(** X5. In the argument that [resolveFileUrl] gives to the hooks, the
    asset reference and the chunk reference are never both the reference
    id: one of them is [null]; and [relativePath] is the file name.  When
    the container has no configuration the method raises before any
    plugin is called. *)
Theorem resolveFileUrl_argument (container : PluginContainer X)
    metaProperty referenceId fileName chunkId moduleId w :
  (forall cfg format,
     __config container = Some cfg -> output_format cfg = Ok format ->
     let arg := resolveFileUrl_arg metaProperty referenceId fileName chunkId
                  moduleId format in
     resolveFileUrl output_format container metaProperty referenceId
       fileName chunkId moduleId w
     = callSyncFirstHook container "resolveFileUrl" [arg] w
     /\ (get arg "assetReferenceId" = VNull
         \/ get arg "chunkReferenceId" = VNull)
     /\ get arg "relativePath" = fileName)
  /\ (__config container = None ->
      exists e,
        resolveFileUrl output_format container metaProperty referenceId
          fileName chunkId moduleId w = (Throw e, w)).
Proof.
  split.
  - intros cfg format Hc Hf arg. split; [|split].
    + unfold resolveFileUrl, config_format. rewrite Hc.
      unfold bind, computing. now rewrite Hf.
    + subst arg. cbn.
      destruct (startsWith metaProperty "ROLLUP_ASSET_URL_") eqn:Ha;
        [|now left].
      destruct (startsWith metaProperty "ROLLUP_CHUNK_URL_") eqn:Hb;
        [|now right].
      exfalso. unfold startsWith in *.
      pose proof (prefix_get _ _ Ha 7 (Ascii.ascii_of_nat 65) eq_refl) as H1.
      pose proof (prefix_get _ _ Hb 7 (Ascii.ascii_of_nat 67) eq_refl) as H2.
      rewrite H1 in H2. vm_compute in H2. discriminate.
    + reflexivity.
  - intros Hc. unfold resolveFileUrl, config_format. rewrite Hc.
    eexists. reflexivity.
Qed.

End SyncFacts.

(* ================================================================== *)
(** * Further properties of the lifecycle facade *)
(* ================================================================== *)

Section ResolutionFacts.

Context {X : Type}.
Variable path_isAbsolute : string -> bool.
Variable path_normalize : string -> string.
Variable path_resolve : string -> string -> string.
Variable process_cwd : string.
Variable resolvePath : string -> value -> X -> outcome string.

Implicit Types (w : world X) (container : PluginContainer X).

Local Abbreviation resolve_id :=
  (resolveId path_isAbsolute path_normalize path_resolve process_cwd
     resolvePath).


(** X7. [handleMetaProperty] touches the metadata of its module only: the
    metadata of every other module, the outside state and the trace stay;
    and with a falsy [meta] nothing changes at all. *)
Theorem handleMetaProperty_frame container filePath meta w :
  let r := handleMetaProperty container filePath meta w in
  fst r = Ok tt
  /\ (forall key, key <> ToString filePath ->
                  __meta (snd r) !! key = __meta w !! key)
  /\ outside (snd r) = outside w
  /\ trace (snd r) = trace w
  /\ (truthy meta = false -> snd r = w).
Proof.
  unfold handleMetaProperty. destruct (truthy meta); cbn.
  - repeat split; try discriminate.
    intros key Hk. unfold merged_meta. now rewrite lookup_insert_ne.
  - auto.
Qed.

Lemma is_string_eq name v : is_string name v = true -> v = VStr name.
Proof.
  destruct v; try discriminate. cbn. intros H.
  now apply String.eqb_eq in H as ->.
Qed.

Lemma indexOf_from_missing name arr :
  VStr name ∉ arr -> forall i, indexOf_from name arr i = (-1)%Z.
Proof.
  induction arr as [|u arr IH]; intros Hn i; cbn [indexOf_from];
    [reflexivity|].
  apply not_elem_of_cons in Hn as [Hu Hn].
  destruct (is_string name u) eqn:E.
  - apply is_string_eq in E. congruence.
  - now apply IH.
Qed.

Lemma elem_of_dec_str name (arr : list value) :
  VStr name ∈ arr \/ VStr name ∉ arr.
Proof.
  induction arr as [|u arr [IH|IH]].
  - right. apply not_elem_of_nil.
  - left. now right.
  - destruct (is_string name u) eqn:E.
    + apply is_string_eq in E as ->. left. now left.
    + right. apply not_elem_of_cons. split; [|exact IH].
      intros <-. cbn in E. now rewrite String.eqb_refl in E.
Qed.

(** X8. With an external list in the configuration, [isExternal] answers
    [true] exactly for the names that are in the list, and changes
    nothing; without configuration it answers [false]. *)
Theorem isExternal_list (cfg : Config X) names name w :
  external cfg = ExtArray names ->
  (exists b, isExternal (Some cfg) name w = (Ok (VBool b), w)
             /\ (b = true <-> VStr name ∈ names))
  /\ isExternal None name w = (Ok (VBool false), w).
Proof.
  intros He. split; [|reflexivity].
  unfold isExternal. rewrite He. eexists. split; [reflexivity|].
  unfold indexOf. rewrite Z.ltb_lt.
  destruct (elem_of_dec_str name names) as [Hin|Hn].
  - split; [auto|]. intros _. now apply indexOf_from_found.
  - rewrite indexOf_from_missing by exact Hn. split; [lia|contradiction].
Qed.

(** X9. [resolveId] when the hooks answer a string [s] and the specifier
    is not external: the id is [s], normalized only when it is an absolute
    path, [external] is [false], and no metadata changes. *)
Theorem resolveId_string_answer container id parent w s w1 e w2 :
  callAsyncFirstHook container "resolveId" [VStr id; parent] w
  = (Ok (VStr s), w1) ->
  isExternal (__config container) id w1 = (Ok e, w2) ->
  truthy e = false ->
  resolve_id container id parent w
  = (Ok (VObj [("id", VStr (if path_isAbsolute s then path_normalize s
                            else s));
               ("external", VBool false)]), w2).
Proof.
  intros Hh He Ht. unfold resolveId.
  rewrite (bind_Ok _ _ _ _ _ Hh). cbn [is_false].
  unfold bind at 1. unfold bind at 1. rewrite He. unfold ret at 1.
  rewrite Ht. reflexivity.
Qed.

(** X10. [resolveId] when no plugin has an opinion and the specifier is
    not external: the specifier is resolved against the parent, or
    against [__entry] under the working directory when there is no parent,
    and the normalized path is the id, with [external: false]; a failure
    of that resolution is the failure of [resolveId]. *)
Theorem resolveId_no_opinion container id parent w w1 e w2 :
  callAsyncFirstHook container "resolveId" [VStr id; parent] w
  = (Ok VUndef, w1) ->
  isExternal (__config container) id w1 = (Ok e, w2) ->
  truthy e = false ->
  let from := if truthy parent then parent
              else VStr (path_resolve process_cwd "__entry") in
  resolve_id container id parent w
  = (match resolvePath id from (outside w2) with
     | Ok p => Ok (VObj [("id", VStr (path_normalize p));
                         ("external", VBool false)])
     | Throw err => Throw err
     end, w2).
Proof.
  intros Hh He Ht from. unfold resolveId.
  rewrite (bind_Ok _ _ _ _ _ Hh). cbn [is_false].
  unfold bind at 1. unfold bind at 1. rewrite He. unfold ret at 1.
  rewrite Ht. cbn [truthy negb]. unfold bind at 1. unfold bind at 1.
  unfold reading. fold from.
  destruct (resolvePath id from (outside w2)); reflexivity.
Qed.

(** X11. [resolveId] when the hooks answer an object and the specifier is
    not external: the object is returned as it is, and its [meta] is
    merged into the metadata kept under its [id]. *)
Theorem resolveId_object_answer container id parent w props w1 e w2 :
  callAsyncFirstHook container "resolveId" [VStr id; parent] w
  = (Ok (VObj props), w1) ->
  isExternal (__config container) id w1 = (Ok e, w2) ->
  truthy e = false ->
  resolve_id container id parent w
  = (Ok (VObj props),
     with_meta w2 (meta_after (lookup_prop "id" props)
                     (lookup_prop "meta" props) (__meta w2))).
Proof.
  intros Hh He Ht. unfold resolveId.
  rewrite (bind_Ok _ _ _ _ _ Hh). cbn [is_false].
  unfold bind at 1. unfold bind at 1. rewrite He. unfold ret at 1.
  rewrite Ht. cbn [truthy negb]. rewrite bind_ret.
  rewrite !member_present by reflexivity. rewrite !bind_ret. cbn [get].
  unfold handleMetaProperty, meta_after.
  destruct (truthy (lookup_prop "meta" props)).
  - reflexivity.
  - unfold bind, ret. now rewrite with_meta_same.
Qed.

(** X12. [resolveDynamicImport] by the result [hr] of its own hook:
    [false], or an object marked [external], gives [false]; a string
    gives [{id: hr}], not normalized; any other object is returned as it
    is; none of these merges metadata or asks the [resolveId] hooks.
    Without such an opinion, the node of an expression gives [false] and
    a string specifier goes through [resolveId]. *)
Theorem resolveDynamicImport_by_hook_result container id parent w hr w1 :
  callAsyncFirstHook container "resolveDynamicImport"
    [specifier_value id; parent] w = (Ok hr, w1) ->
  resolveDynamicImport path_isAbsolute path_normalize path_resolve
    process_cwd resolvePath container id parent w
  = if is_false hr
       || (String.eqb (typeof hr) "object" && truthy (get hr "external"))
    then (Ok (VBool false), w1)
    else if String.eqb (typeof hr) "string" then (Ok (VObj [("id", hr)]), w1)
    else if String.eqb (typeof hr) "object" then (Ok hr, w1)
    else match id with
         | Expression _ => (Ok (VBool false), w1)
         | Literal s => resolve_id container s parent w1
         end.
Proof.
  intros Hh. unfold resolveDynamicImport.
  rewrite (bind_Ok _ _ _ _ _ Hh).
  destruct (callAsyncFirstHook_result _ _ _ _ _ _ Hh) as [->|Habs].
  - cbn. destruct id; reflexivity.
  - destruct (is_false hr) eqn:Hf; [reflexivity|]. cbn [orb].
    unfold member. rewrite Habs.
    destruct (String.eqb (typeof hr) "object") eqn:Ho; cbn [andb].
    + unfold bind at 1. unfold bind at 1. unfold ret at 1 2.
      destruct (truthy (get hr "external")); [reflexivity|].
      destruct (String.eqb (typeof hr) "string"); reflexivity.
    + unfold bind at 1. unfold ret at 1.
      destruct (String.eqb (typeof hr) "string"); [reflexivity|].
      destruct id; reflexivity.
Qed.

End ResolutionFacts.

Section TransformMoreFacts.

Context {X : Type}.
Variable combineSourceMapChainFast :
  list value -> value -> value -> outcome value.

Implicit Types (w : world X) (container : PluginContainer X).

Lemma undisturbed_refl w : undisturbed w w.
Proof. repeat split. Qed.

Lemma undisturbed_trans w1 w2 w3 :
  undisturbed w1 w2 -> undisturbed w2 w3 -> undisturbed w1 w3.
Proof.
  intros (a1 & b1 & c1 & d1) (a2 & b2 & c2 & d2).
  repeat split; congruence.
Qed.

Lemma quiet_ret {A} (a : A) : quiet (@ret X A a).
Proof. intros w. apply undisturbed_refl. Qed.

Lemma quiet_throw {A} e : quiet (@throw X A e).
Proof. intros w. apply undisturbed_refl. Qed.

Lemma quiet_bind {A B} (m : M X A) (k : A -> M X B) :
  quiet m -> (forall a, quiet (k a)) -> quiet (bind m k).
Proof.
  intros Hm Hk w. unfold bind. specialize (Hm w).
  destruct (m w) as [[a|e] w1]; cbn [snd] in *; [|exact Hm].
  eapply undisturbed_trans; [exact Hm|apply Hk].
Qed.

Lemma quiet_if {A} (b : bool) (m1 m2 : M X A) :
  quiet m1 -> quiet m2 -> quiet (if b then m1 else m2).
Proof. now destruct b. Qed.

Lemma quiet_member v k : quiet (@member X v k).
Proof. unfold member. apply quiet_if; [apply quiet_throw|apply quiet_ret]. Qed.

Lemma quiet_handleMetaProperty container filePath meta :
  quiet (handleMetaProperty container filePath meta).
Proof.
  unfold handleMetaProperty. apply quiet_if; [|apply quiet_ret].
  intros w. repeat split.
Qed.

Lemma quiet_callAsyncHook (p : Plugin X) hook args :
  quiet (_callAsyncHook p hook args).
Proof.
  intros w.
  pose proof (_callAsyncHook_frame p hook args w) as (Ht & a & b & c & _).
  repeat split; try assumption.
  rewrite Ht, List.filter_app. unfold invocations. cbn [flat_map].
  destruct (execute p hook); cbn; now rewrite app_nil_r.
Qed.

Create HintDb quiet.
#[local] Hint Resolve quiet_ret quiet_throw quiet_member quiet_handleMetaProperty
  quiet_callAsyncHook : quiet.

Lemma quiet_transform_toArgs input : quiet (@transform_toArgs X input).
Proof.
  unfold transform_toArgs.
  repeat (apply quiet_bind; [auto with quiet|intros ?]). auto with quiet.
Qed.

Lemma quiet_transform_fromResult container id result input :
  quiet (transform_fromResult container id result input).
Proof.
  unfold transform_fromResult.
  repeat first
    [ apply quiet_bind; [|intros ?]
    | apply quiet_if
    | solve [auto with quiet]
    | (intros w; repeat split) ].
Qed.

Lemma quiet_sequential_fold {A} hook (toArgs : A -> M X (list value))
    (fromResult : value -> A -> M X A) ps :
  (forall acc, quiet (toArgs acc)) ->
  (forall hr acc, quiet (fromResult hr acc)) ->
  forall acc, quiet (sequential_fold ps hook toArgs fromResult acc).
Proof.
  intros Ha Hr. induction ps as [|p ps IH]; intros acc;
    cbn [sequential_fold]; [apply quiet_ret|].
  apply quiet_bind; [apply Ha|intros args].
  apply quiet_bind; [apply quiet_callAsyncHook|intros hr].
  destruct hr; try apply IH; (apply quiet_bind; [apply Hr|intros; apply IH]).
Qed.

(** X13. [transform] with no plugin: the code is returned as it came, the
    combiner is called with an empty chain, and [syntheticNamedExports] is
    [undefined] (not the [false] of the seed); no metadata changes. *)
Theorem transform_without_plugins cfg code id w :
  let r := transform combineSourceMapChainFast (mkContainer [] cfg) code id w
  in
  fst r = match combineSourceMapChainFast [] (VStr code) (VStr id) with
          | Ok m => Ok (VObj [("code", VStr code); ("map", m);
                              ("syntheticNamedExports", VUndef)])
          | Throw e => Throw e
          end
  /\ trace (snd r) = trace w ++ [EvCombine [] (VStr code) (VStr id)]
  /\ __meta (snd r) = __meta w.
Proof.
  unfold transform, callAsyncSequentialHook.
  cbn [__plugins length callAsyncSequentialHook_loop].
  unfold bind, computing. cbn.
  destruct (combineSourceMapChainFast [] (VStr code) (VStr id)); cbn; auto.
Qed.

(** X14. When [transform] returns, the transient fields of the container
    are [null] again. *)
Theorem transform_resets_transient_state container code id w v w' :
  transform combineSourceMapChainFast container code id w = (Ok v, w') ->
  transient_reset w'.
Proof.
  unfold transform.
  do 3 (erewrite bind_Ok by reflexivity).
  unfold bind at 1.
  destruct (callAsyncSequentialHook _ _ _ _ _ _) as [[hr|e] wb];
    [|discriminate].
  do 2 (erewrite bind_Ok by reflexivity).
  unfold bind at 1, computing at 1.
  destruct (combineSourceMapChainFast _ _ _) as [m|e]; [|discriminate].
  erewrite bind_Ok by reflexivity.
  unfold member. destruct (is_absent hr); cbn; [discriminate|].
  intros [= _ <-]. repeat split.
Qed.

(** X15. When a [transform] hook (or the merge of its result) raises,
    [transform] raises the same error at once: the map combiner is not
    called, and the transient fields of the container are left set to the
    map chain, the code and the id of this call. *)
Theorem transform_failure_leaves_transient_state container code id w e w' :
  callAsyncSequentialHook container "transform" transform_toArgs
    (transform_fromResult container id)
    (VObj [("code", VStr code); ("id", VStr id); ("map", VNull);
           ("syntheticNamedExports", VBool false)])
    (transform_entry w code id) = (Throw e, w') ->
  transform combineSourceMapChainFast container code id w = (Throw e, w')
  /\ transient_set code id w'
  /\ List.filter is_combine (trace w') = List.filter is_combine (trace w).
Proof.
  intros Hd. split.
  - unfold transform. do 3 (erewrite bind_Ok by reflexivity).
    apply bind_Throw. exact Hd.
  - assert (Hq : undisturbed (transform_entry w code id) w').
    { pose proof (quiet_sequential_fold "transform" transform_toArgs
                    (transform_fromResult container id)
                    (__plugins container) quiet_transform_toArgs
                    (quiet_transform_fromResult container id)
                    (VObj [("code", VStr code); ("id", VStr id);
                           ("map", VNull);
                           ("syntheticNamedExports", VBool false)])
                    (transform_entry w code id)) as Hq.
      unfold callAsyncSequentialHook in Hd.
      pose proof (sequential_loop_fold "transform" transform_toArgs
                    (transform_fromResult container id)
                    (__plugins container) []
                    (VObj [("code", VStr code); ("id", VStr id);
                           ("map", VNull);
                           ("syntheticNamedExports", VBool false)])
                    (transform_entry w code id)) as Hl.
      cbn [app length] in Hl. rewrite Hl in Hd. now rewrite Hd in Hq. }
    destruct Hq as (a & b & c & d). unfold transient_set.
    rewrite a, b, c, d. repeat split.
Qed.

End TransformMoreFacts.

Section MergeFacts.

Context {X : Type}.
Implicit Types (w : world X) (container : PluginContainer X).

Local Abbreviation keeps_sne m :=
  (forall w, syntheticNamedExports w <> VUndef ->
             syntheticNamedExports (snd (m w)) = syntheticNamedExports w).

Lemma keeps_sne_bind {A B} (m : M X A) (k : A -> M X B) :
  keeps_sne m -> (forall a, keeps_sne (k a)) -> keeps_sne (bind m k).
Proof.
  intros Hm Hk w Hs. unfold bind. specialize (Hm w Hs).
  destruct (m w) as [[a|e] w1]; cbn [snd] in *; [|exact Hm].
  rewrite <- Hm. apply Hk. now rewrite Hm.
Qed.

Lemma keeps_sne_member v k : keeps_sne (@member X v k).
Proof. intros w _. unfold member. now destruct (is_absent v). Qed.

Lemma keeps_sne_handleMetaProperty container filePath meta :
  keeps_sne (handleMetaProperty container filePath meta).
Proof. intros w _. unfold handleMetaProperty. now destruct (truthy meta). Qed.

(** X16. Once a [transform] result has set [syntheticNamedExports], no
    later result changes it: the merge leaves a value other than
    [undefined] as it is, whatever the result it merges. *)
Theorem transform_fromResult_keeps_syntheticNamedExports
    container id result input w :
  syntheticNamedExports w <> VUndef ->
  syntheticNamedExports
    (snd (transform_fromResult container id result input w))
  = syntheticNamedExports w.
Proof.
  revert w. unfold transform_fromResult.
  apply keeps_sne_bind; [apply keeps_sne_member|intros rmap].
  apply keeps_sne_bind.
  { destruct (_ && _); [|now intros w _].
    apply keeps_sne_bind; [apply keeps_sne_member|now intros mp w _]. }
  intros unmapped. cbv zeta.
  apply keeps_sne_bind; [apply keeps_sne_member|intros rmeta].
  apply keeps_sne_bind; [apply keeps_sne_handleMetaProperty|intros _].
  apply keeps_sne_bind; [apply keeps_sne_member|intros rsne].
  intros w Hs.
  assert (Hu : is_undefined (syntheticNamedExports w) = false)
    by (destruct (syntheticNamedExports w); try reflexivity; congruence).
  unfold bind at 1. unfold get_sne at 1. rewrite Hu, andb_false_r.
  rewrite bind_ret. revert w Hs Hu. intros w Hs _. revert w Hs.
  apply keeps_sne_bind; [apply keeps_sne_member|intros rcode].
  destruct (negb (is_undefined rcode)); [|now intros w _].
  apply keeps_sne_bind; [apply keeps_sne_member|intros rmap'].
  intros w _. reflexivity.
Qed.

Lemma lookup_prop_deleted k (ps : obj) :
  lookup_prop k (delete_prop k ps) = VUndef.
Proof.
  induction ps as [|[k0 v0] ps IH]; [reflexivity|]. cbn [delete_prop].
  destruct (String.eqb k0 k) eqn:E; [exact IH|].
  cbn [lookup_prop]. now rewrite E.
Qed.

(** X17. A [transform] result whose [map] is an object without mapping
    data is merged as if it had no map: the new accumulator and the entry
    pushed on the map chain carry its code and an [undefined] map. *)
Theorem transform_fromResult_discards_empty_map
    container id (props : obj) c mp input w :
  lookup_prop "code" props = c -> c <> VUndef ->
  lookup_prop "map" props = mp ->
  typeof mp = "object" -> mp <> VNull ->
  truthy (get mp "mappings") = false ->
  let r := transform_fromResult container id (VObj props) input w in
  fst r = Ok (VObj [("code", c); ("id", VStr id); ("map", VUndef)])
  /\ mapChain (snd r) = mapChain w ++ [chain_entry c VUndef].
Proof.
  intros Hc Hcu Hm Hmo Hmn Hmt.
  assert (is_absent mp = false) as Hma
    by (destruct mp; cbn in *; try reflexivity; congruence).
  assert (is_null mp = false) as Hmnull
    by (destruct mp; try reflexivity; congruence).
  assert (is_undefined c = false) as Hcu'
    by (destruct c; try reflexivity; congruence).
  cbv zeta. unfold transform_fromResult.
  change (String.eqb (typeof (VObj props)) "string") with false. cbv iota.
  rewrite (member_present (VObj props) "map"), bind_ret by reflexivity.
  cbn [get]. rewrite Hm, Hmnull, Hmo.
  cbn [negb andb String.eqb Ascii.eqb Bool.eqb].
  rewrite (bind_Ok _ _ w true w)
    by (rewrite member_present by exact Hma; unfold bind, ret;
        now rewrite Hmt).
  cbn [delete_member].
  rewrite !member_present by reflexivity. cbn [get].
  rewrite lookup_prop_deleted.
  rewrite !lookup_prop_delete by discriminate. rewrite Hc.
  unfold handleMetaProperty.
  unfold bind, ret, get_meta, put_meta, get_sne, put_sne, get_mapChain,
    put_mapChain.
  cbn. rewrite Hcu'. cbn.
  destruct (truthy (lookup_prop "meta" props)); cbn;
    destruct (truthy (lookup_prop "syntheticNamedExports" props)); cbn;
    try destruct (is_undefined (syntheticNamedExports w)); cbn;
    split; reflexivity.
Qed.

Lemma renderChunk_fromResult_props result (acc : value * obj) w acc' w' :
  @renderChunk_fromResult X result acc w = (Ok acc', w') ->
  let r := if String.eqb (typeof result) "string"
           then VObj [("code", result)] else result in
  w' = w
  /\ forall k,
       lookup_prop k (snd acc')
       = if String.eqb k "map" && truthy (get r "map") then get r "map"
         else if String.eqb k "code" && truthy (get r "code")
              then get r "code"
              else lookup_prop k (snd acc).
Proof.
  unfold renderChunk_fromResult. cbv zeta.
  set (r := if String.eqb (typeof result) "string" then _ else _).
  unfold member. destruct (is_absent r); [discriminate|].
  unfold bind, ret. intros [= <- <-]. split; [reflexivity|].
  intros k. cbn [snd].
  destruct (truthy (get r "map")) eqn:Hm;
    destruct (truthy (get r "code")) eqn:Hc;
    rewrite ?lookup_prop_set_prop, ?andb_true_r, ?andb_false_r;
    rewrite 1?(String.eqb_sym k "map"), 1?(String.eqb_sym k "code");
    try reflexivity.
Qed.

(** X18. Merging one [renderChunk] result writes nothing but the [code]
    and the [map] of the chunk: every other property of [chunkInfo] is as
    it was, whatever the plugin answered, and nothing else of the state
    of the plugin system changes. *)
Theorem renderChunk_fromResult_frame result (acc : value * obj) w acc' w' k :
  @renderChunk_fromResult X result acc w = (Ok acc', w') ->
  k <> "code" -> k <> "map" ->
  w' = w /\ lookup_prop k (snd acc') = lookup_prop k (snd acc).
Proof.
  intros H Hc Hm.
  destruct (renderChunk_fromResult_props _ _ _ _ _ H) as [-> Hk].
  split; [reflexivity|]. rewrite Hk.
  apply String.eqb_neq in Hc, Hm. now rewrite Hc, Hm.
Qed.

(** X19. Merging one [renderChunk] result: a truthy [code] (for a string
    result, the string itself) replaces the code of the chunk and a truthy
    [map] its map; a falsy one, such as the empty string, leaves what was
    there.  The value handed back to the dispatch is [undefined]. *)
Theorem renderChunk_fromResult_merges result out chunkInfo w acc' w' :
  @renderChunk_fromResult X result (out, chunkInfo) w = (Ok acc', w') ->
  let r := if String.eqb (typeof result) "string"
           then VObj [("code", result)] else result in
  fst acc' = VUndef
  /\ lookup_prop "code" (snd acc')
     = (if truthy (get r "code") then get r "code"
        else lookup_prop "code" chunkInfo)
  /\ lookup_prop "map" (snd acc')
     = (if truthy (get r "map") then get r "map"
        else lookup_prop "map" chunkInfo).
Proof.
  intros H r.
  destruct (renderChunk_fromResult_props _ _ _ _ _ H) as [_ Hk].
  fold r in Hk. split; [|split].
  - unfold renderChunk_fromResult, member, bind, ret in H.
    cbv zeta in H. fold r in H.
    destruct (is_absent r); [discriminate|]. now injection H as <- _.
  - rewrite (Hk "code"). reflexivity.
  - rewrite (Hk "map"). cbn [String.eqb Ascii.eqb Bool.eqb andb snd].
    now destruct (truthy (get r "map")).
Qed.

End MergeFacts.

(* ================================================================== *)
(** * Further properties of the bundle view *)
(* ================================================================== *)

Section BundleViewMoreFacts.

Import BundleView.

Lemma proxy_get_app_missing bundle key more :
  proxy_get bundle key = Ok VUndef ->
  proxy_get (bundle ++ more) key = proxy_get more key.
Proof.
  unfold proxy_get. induction bundle as [|e bundle IH]; cbn [app find];
    [reflexivity|].
  unfold has_fileName at 1 3.
  destruct (is_absent e) eqn:Ha; [discriminate|].
  destruct (match get e "fileName" with VStr s => String.eqb s key
            | _ => false end).
  - intros [= ->]. discriminate.
  - exact IH.
Qed.

(** X20. A record assigned through the view, when no record of the bundle
    had the name read, is found under its own file name and under no
    other: the key of the assignment plays no part. *)
Theorem bundle_view_read_after_assignment bundle prop key v :
  proxy_get bundle key = Ok VUndef ->
  is_absent v = false ->
  proxy_get (proxy_set bundle prop v) key
  = Ok (match get v "fileName" with
        | VStr s => if String.eqb s key then v else VUndef
        | _ => VUndef
        end).
Proof.
  intros Hmiss Hv. unfold proxy_set.
  rewrite (proxy_get_app_missing _ _ _ Hmiss).
  unfold proxy_get. cbn [find]. unfold has_fileName. rewrite Hv.
  destruct (get v "fileName"); try reflexivity.
  now destruct (String.eqb s key).
Qed.

(** X21. Assigning [null] or [undefined] through the view breaks it: from
    then on, a read of a name that no earlier record has raises a
    TypeError, and so does the enumeration of the keys. *)
Theorem bundle_view_absent_assignment bundle prop key v :
  proxy_get bundle key = Ok VUndef ->
  is_absent v = true ->
  (exists e, proxy_get (proxy_set bundle prop v) key = Throw e)
  /\ exists e, proxy_ownKeys (proxy_set bundle prop v) = Throw e.
Proof.
  intros Hmiss Hv. unfold proxy_set. split.
  - rewrite (proxy_get_app_missing _ _ _ Hmiss).
    unfold proxy_get. cbn [find]. unfold has_fileName. rewrite Hv.
    eexists. reflexivity.
  - clear Hmiss. induction bundle as [|e bundle [x IH]];
      cbn [app proxy_ownKeys].
    + rewrite Hv. eexists. reflexivity.
    + destruct (is_absent e); [eexists; reflexivity|].
      rewrite IH. eexists. reflexivity.
Qed.

Lemma same_key_sym a b : same_key a b = same_key b a.
Proof. destruct a, b; try reflexivity. cbn. apply String.eqb_sym. Qed.

Lemma valid_keys_snoc ks k :
  valid_keys (ks ++ [k])
  = valid_keys ks && (is_key k && negb (existsb (same_key k) ks)).
Proof.
  induction ks as [|x ks IH]; cbn [app valid_keys existsb].
  - now destruct (is_key k).
  - rewrite existsb_app, IH. cbn [existsb]. rewrite (same_key_sym k x).
    destruct (is_key x), (existsb (same_key x) ks), (same_key x k),
      (valid_keys ks), (is_key k), (existsb (same_key k) ks); reflexivity.
Qed.

Lemma proxy_ownKeys_map bundle ks :
  proxy_ownKeys bundle = Ok ks ->
  ks = map (fun e => get e "fileName") bundle.
Proof.
  revert ks. induction bundle as [|e bundle IH]; intros ks;
    cbn [proxy_ownKeys map].
  - now intros [= <-].
  - destruct (is_absent e); [discriminate|].
    destruct (proxy_ownKeys bundle) as [ks'|]; [|discriminate].
    intros [= <-]. now rewrite (IH ks' eq_refl).
Qed.

Lemma proxy_ownKeys_snoc bundle v ks :
  proxy_ownKeys bundle = Ok ks ->
  is_absent v = false ->
  proxy_ownKeys (bundle ++ [v]) = Ok (ks ++ [get v "fileName"]).
Proof.
  intros Hk Hv. revert ks Hk.
  induction bundle as [|e bundle IH]; intros ks; cbn [app proxy_ownKeys].
  - intros [= <-]. now rewrite Hv.
  - destruct (is_absent e); [discriminate|].
    destruct (proxy_ownKeys bundle) as [ks'|]; [|discriminate].
    intros [= <-]. now rewrite (IH ks' eq_refl).
Qed.

(** X22. The keys that [Object.keys(bundleObj)] and [for (k in
    bundleObj)] get, when they get any, are the file names of the
    records, in the order of the sequence; they are strings, none of them
    twice.  After an assignment of a record whose file name is a string
    that no earlier record has, the keys are the ones before with that
    file name (not the key assigned to) at the end; after an assignment
    of a record whose file name is that of an earlier record, or is not a
    string, asking for the keys raises a TypeError. *)
Theorem bundle_view_keys bundle prop v ks :
  view_ownKeys bundle = Ok ks ->
  is_absent v = false ->
  ks = map (fun e => get e "fileName") bundle
  /\ valid_keys ks = true
  /\ view_ownKeys (proxy_set bundle prop v)
     = if is_key (get v "fileName")
          && negb (existsb (same_key (get v "fileName")) ks)
       then Ok (ks ++ [get v "fileName"])
       else Throw (error_obj "TypeError"
                     "'ownKeys' on proxy: trap returned an invalid key list").
Proof.
  unfold view_ownKeys, proxy_set. intros Hk Hv.
  destruct (proxy_ownKeys bundle) as [ks0|] eqn:Hks; [|discriminate].
  destruct (valid_keys ks0) eqn:Hvalid; [|discriminate].
  injection Hk as <-.
  split; [now apply proxy_ownKeys_map|]. split; [exact Hvalid|].
  rewrite (proxy_ownKeys_snoc bundle v ks0 Hks Hv), valid_keys_snoc, Hvalid.
  reflexivity.
Qed.

End BundleViewMoreFacts.

(* ================================================================== *)
(** * Further properties of the syntax transform *)
(* ================================================================== *)

Section Es2cjsMoreFacts.

Import Es2cjs.

Variable acorn_parse : string -> parse_result.
Variable MagicString : Type.
Variable MagicString_new : string -> MagicString.
Variable overwrite : MagicString -> nat -> nat -> string -> MagicString.
Variable appendRight : MagicString -> nat -> string -> MagicString.
Variable toString : MagicString -> string.

Local Abbreviation Response := (Response MagicString).
Local Abbreviation rewrite_node :=
  (rewrite_node MagicString overwrite appendRight).
Local Abbreviation rewrite_loop :=
  (rewrite_loop MagicString overwrite appendRight).
Local Abbreviation es2cjs :=
  (es2cjs acorn_parse MagicString MagicString_new overwrite appendRight
     toString).

Implicit Types (context : option Options) (n : node) (response : Response).

Lemma resolveImport_Ok context response n r :
  resolveImport MagicString context response n = Ok r ->
  exists src b, n_source n = Some src /\ isExternal context src = Ok b.
Proof.
  unfold resolveImport, source_value.
  destruct (n_source n) as [src|]; [|discriminate]. cbn [obind].
  destruct (isExternal context src) as [b|] eqn:He; [|discriminate].
  intros _. exists src, b. split; [reflexivity|exact He].
Qed.

Lemma rewrite_node_Ok context response n response' :
  rewrite_node context response n = Ok response' ->
  well_formed context n = true.
Proof.
  unfold Es2cjs.rewrite_node, well_formed, resolves_import.
  destruct (n_type n).
  - destruct (resolveImport _ _ _ _) as [r|] eqn:Hr; [|discriminate].
    destruct (resolveImport_Ok _ _ _ _ Hr) as (src & b & -> & ->). auto.
  - destruct (n_declaration n); [auto|discriminate].
  - destruct (n_declaration n); [auto|].
    destruct (n_specifiers n); [|auto].
    destruct (n_source n) as [src|] eqn:Hs; [|auto].
    destruct (resolveImport _ _ _ _) as [r|] eqn:Hr; [|discriminate].
    destruct (resolveImport_Ok _ _ _ _ Hr) as (src' & b & Hs' & He).
    rewrite Hs in Hs'. injection Hs' as <-. now rewrite He.
  - destruct (resolveImport _ _ _ _) as [r|] eqn:Hr; [|discriminate].
    destruct (resolveImport_Ok _ _ _ _ Hr) as (src & b & -> & ->). auto.
  - auto.
Qed.

Lemma rewrite_loop_Ok context rest :
  forall done response response',
    rewrite_loop context (done ++ rest) (length rest) (length done) response
    = Ok response' ->
    forallb (well_formed context) rest = true.
Proof.
  induction rest as [|n rest IH]; intros done response response';
    [reflexivity|].
  cbn [length Es2cjs.rewrite_loop forallb]. rewrite lookup_at_length.
  destruct (rewrite_node context response n) as [r1|] eqn:Hn; [|discriminate].
  cbn [obind]. intros Hl. rewrite (rewrite_node_Ok _ _ _ _ Hn). cbn [andb].
  apply (IH (done ++ [n]) r1 response').
  rewrite <- app_assoc, length_app. cbn [app length].
  now rewrite Nat.add_1_r.
Qed.

(** X23. The transform returns exactly when the source parses and every
    statement is well formed (an import or export-all has a source, a
    default export a declaration, and the external predicate answers
    where it is asked); and whenever it returns, its dependency list is
    the list of the internal specifiers in statement order. *)
Theorem es2cjs_returns_iff input context :
  ((exists res, es2cjs input context = Ok res)
   <-> exists body, acorn_parse input = Parsed body
                    /\ forallb (well_formed context) body = true)
  /\ forall res body,
       es2cjs input context = Ok res -> acorn_parse input = Parsed body ->
       r_dependencies res = internal_sources context body.
Proof.
  assert (Hwf : forall res body,
    es2cjs input context = Ok res -> acorn_parse input = Parsed body ->
    forallb (well_formed context) body = true).
  { intros res body Hr Hp. unfold Es2cjs.es2cjs in Hr. rewrite Hp in Hr.
    destruct (rewrite_loop _ _ _ _ _) as [r|] eqn:Hl; [|discriminate].
    apply (rewrite_loop_Ok context body [] _ _ Hl). }
  assert (Hok : forall body,
    acorn_parse input = Parsed body ->
    forallb (well_formed context) body = true ->
    exists out, es2cjs input context
                = Ok (mkResult out (internal_sources context body))).
  { intros body Hp Hw. unfold Es2cjs.es2cjs. rewrite Hp.
    destruct (rewrite_loop_dependencies MagicString overwrite appendRight
                context body [] []
                (mkResponse _ (MagicString_new input) []) Hw)
      as (r & Hloop & Hd).
    cbn [app length] in Hloop. rewrite app_nil_r in Hloop.
    rewrite Hloop. cbn [obind]. eexists. now rewrite Hd. }
  split; [split|].
  - intros [res Hr].
    destruct (acorn_parse input) as [body|] eqn:Hp.
    + exists body. split; [reflexivity|]. apply (Hwf res body Hr eq_refl).
    + unfold Es2cjs.es2cjs in Hr. rewrite Hp in Hr. discriminate.
  - intros (body & Hp & Hw). destruct (Hok body Hp Hw) as [out Ho]. eauto.
  - intros res body Hr Hp.
    destruct (Hok body Hp (Hwf res body Hr Hp)) as [out Ho].
    rewrite Ho in Hr. now injection Hr as <-.
Qed.

Lemma rewrite_loop_other context rest :
  Forall (fun n => n_type n = OtherStatement) rest ->
  forall done response,
    rewrite_loop context (done ++ rest) (length rest) (length done) response
    = Ok response.
Proof.
  induction 1 as [|n rest Hn _ IH]; intros done response; [reflexivity|].
  cbn [length Es2cjs.rewrite_loop]. rewrite lookup_at_length.
  unfold Es2cjs.rewrite_node. rewrite Hn. cbn [obind].
  specialize (IH (done ++ [n]) response).
  rewrite <- app_assoc, length_app in IH. cbn [app length] in IH.
  now rewrite Nat.add_1_r in IH.
Qed.

(** X24. A source without import and export statements goes through
    untouched: no edit is made on the buffer, so the output is the text of
    the fresh buffer, and there is no dependency. *)
Theorem es2cjs_without_imports_exports input context body :
  acorn_parse input = Parsed body ->
  Forall (fun n => n_type n = OtherStatement) body ->
  es2cjs input context
  = Ok (mkResult (toString (MagicString_new input)) []).
Proof.
  intros Hp Hb. unfold Es2cjs.es2cjs. rewrite Hp.
  now rewrite (rewrite_loop_other context body Hb [] _).
Qed.

(** The global an external import reads: the configured global for the
    specifier, else what a plain object inherits under that name, else the
    local name of the default import, else the specifier itself. *)
Lemma global_name_priority (globals : list (string * string)) specs src :
  let g := or_else (global_lookup src globals)
             (or_else (default_local specs) src) in
  (forall x, assoc src globals = Some x -> x <> EmptyString -> g = x)
  /\ (forall t, assoc src globals = None -> Object_prototype src = Some t ->
                t <> EmptyString -> g = t)
  /\ (forall d, assoc src globals = None -> Object_prototype src = None ->
                default_local specs = Some d -> d <> EmptyString -> g = d)
  /\ (assoc src globals = None -> Object_prototype src = None ->
      default_local specs = None -> g = src).
Proof.
  cbv zeta. unfold or_else, global_lookup. repeat split.
  - intros x -> Hx. apply String.eqb_neq in Hx. now rewrite Hx.
  - intros t -> -> Ht. apply String.eqb_neq in Ht. now rewrite Ht.
  - intros d -> -> -> Hd. apply String.eqb_neq in Hd. now rewrite Hd.
  - now intros -> -> ->.
Qed.

(** X25. An import of an external module with specifiers adds no
    dependency and requires nothing: it binds the alias [_e] followed by
    the global name to that global of [window].  The global name is what
    [globalConf[specifier]] reads when that is a non-empty text: the
    configured global, or, for a specifier without an entry that is a
    name of [Object.prototype] (such as [constructor]), the text of what
    the plain object inherits; else the local name of the default import;
    else the specifier itself. *)
Theorem resolveImport_external options response n src s specs :
  n_source n = Some src ->
  isExternal (Some options) src = Ok true ->
  n_specifiers n = Some (s :: specs) ->
  let globals := match output_globals options with
                 | Some g => g
                 | None => []
                 end in
  exists g,
    resolveImport MagicString (Some options) response n
    = Ok (fold_left (fun t x => t +:+ external_binding ("_e" +:+ g) x)
            (s :: specs) ("var _e" +:+ g +:+ " = window." +:+ g +:+ ";"),
          "_e" +:+ g, response)
    /\ (forall x, assoc src globals = Some x -> x <> EmptyString -> g = x)
    /\ (forall t, assoc src globals = None ->
                  Object_prototype src = Some t -> t <> EmptyString -> g = t)
    /\ (forall d, assoc src globals = None -> Object_prototype src = None ->
                  default_local (s :: specs) = Some d ->
                  d <> EmptyString -> g = d)
    /\ (assoc src globals = None -> Object_prototype src = None ->
        default_local (s :: specs) = None -> g = src).
Proof.
  intros Hs He Hsp globals.
  exists (or_else (global_lookup src globals)
            (or_else (default_local (s :: specs)) src)).
  split; [|apply (global_name_priority globals (s :: specs) src)].
  unfold resolveImport, source_value. rewrite Hs. cbn [obind].
  rewrite He. cbn [obind]. unfold resolveExternalImport, source_value.
  unfold nonempty_specifiers, specifiers_of. rewrite Hs, Hsp.
  reflexivity.
Qed.

(** X26. An import without specifiers (for its side effects): of an
    external module, it is replaced by nothing; of an internal module, by
    the require of the next placeholder alone, and the specifier becomes
    the last dependency. *)
Theorem resolveImport_side_effect context response n src b :
  n_type n = ImportDeclaration ->
  n_source n = Some src ->
  n_specifiers n = Some [] ->
  isExternal context src = Ok b ->
  let k := length (dependencies _ response) in
  resolveImport MagicString context response n
  = if b then Ok (EmptyString, EmptyString, response)
    else Ok ("var _i" +:+ pretty k +:+ " = require(__nollup__" +:+ pretty k
             +:+ ");",
             "_i" +:+ pretty k,
             mkResponse _ (output _ response)
               (dependencies _ response ++ [src])).
Proof.
  intros Ht Hs Hsp He k. unfold resolveImport, source_value.
  rewrite Hs. cbn [obind]. rewrite He. cbn [obind]. destruct b.
  - unfold resolveExternalImport.
    destruct context as [options|]; [|discriminate].
    unfold nonempty_specifiers, is_ExportAll, specifiers_of.
    rewrite Hsp, Ht. reflexivity.
  - unfold resolveInternalImport, source_value, specifiers_of.
    rewrite Hs, Hsp. reflexivity.
Qed.

End Es2cjsMoreFacts.

(* ================================================================== *)
(** * The further properties at concrete plugins and sources *)
(* ================================================================== *)

Section MoreInstances.

Import Examples MoreExamples.

(** [buildStart] with a first plugin that raises: the second plugin is
    called all the same, and the raise is the result. *)
Example buildStart_calls_after_raise :
  buildStart (container failing_plugins) VUndef w0
  = (Throw (VStr "boom"),
     traced [ EvInvoke "P1" "buildStart" [VUndef];
              EvInvoke "P2" "buildStart" [VUndef] ]).
Proof. reflexivity. Qed.

Lemma _callSyncHook_literal_string_witness :
  _callSyncHook literal_url_plugin "resolveFileUrl" [] w0
  = (Throw (error_obj "TypeError"
              "plugin.execute[hook].apply is not a function"), w0)
  /\ _callAsyncHook literal_url_plugin "resolveFileUrl" [] w0
     = (Ok (VStr "'x.js'"), w0).
Proof.
  pose proof (_callSyncHook_literal_string None literal_url_plugin []
                "resolveFileUrl" [] w0 "'x.js'" eq_refl) as (H1 & H2 & _).
  split; [exact H1|exact H2].
Defined.

Lemma callSyncFirstHook_returns_promise_witness :
  callSyncFirstHook (container url_plugins) "resolveFileUrl" [] w0
  = (Ok (Pending (Resolved (VStr "late"))),
     traced [EvInvoke "P1" "resolveFileUrl" []]).
Proof.
  apply (callSyncFirstHook_returns_promise None
           (plugin "P1" "resolveFileUrl" (EFun (promising (VStr "late"))))
           [plugin "P2" "resolveFileUrl"
              (EFun (returning (VStr "never asked")))]
           "resolveFileUrl" [] w0 (promising (VStr "late"))
           (Resolved (VStr "late")) ∅ tt).
  - reflexivity.
  - reflexivity.
Defined.

Lemma isExternal_list_witness :
  (exists b, isExternal (Some external_config) "jquery" w0
             = (Ok (VBool b), w0)
             /\ (b = true <-> VStr "jquery" ∈ [VStr "jquery"; VStr "lodash"]))
  /\ isExternal None "jquery" w0 = (Ok (VBool false), w0).
Proof.
  apply (isExternal_list external_config [VStr "jquery"; VStr "lodash"]
           "jquery" w0).
  reflexivity.
Defined.

Lemma resolveId_string_answer_witness :
  resolveId isAbsolute normalize resolve cwd resolvePath
    (container (resolve_plugins (VStr "src/x.js"))) "./x" VUndef w0
  = (Ok (VObj [("id", VStr "src/x.js"); ("external", VBool false)]),
     traced [EvInvoke "P1" "resolveId" [VStr "./x"; VUndef]]).
Proof.
  apply (resolveId_string_answer isAbsolute normalize resolve cwd resolvePath
           (container (resolve_plugins (VStr "src/x.js"))) "./x" VUndef w0
           "src/x.js"
           (traced [EvInvoke "P1" "resolveId" [VStr "./x"; VUndef]])
           (VBool false)
           (traced [EvInvoke "P1" "resolveId" [VStr "./x"; VUndef]])).
  - reflexivity.
  - reflexivity.
  - reflexivity.
Defined.

Lemma resolveId_no_opinion_witness :
  resolveId isAbsolute normalize resolve cwd resolvePath (container [])
    "./x" VUndef w0
  = (Ok (VObj [("id", VStr "/proj/./x"); ("external", VBool false)]), w0).
Proof.
  apply (resolveId_no_opinion isAbsolute normalize resolve cwd resolvePath
           (container []) "./x" VUndef w0 w0 (VBool false) w0).
  - reflexivity.
  - reflexivity.
  - reflexivity.
Defined.

Lemma resolveId_object_answer_witness :
  let props := [("id", VStr "/v.js"); ("meta", VObj [("x", VNum 1)])] in
  resolveId isAbsolute normalize resolve cwd resolvePath
    (container (resolve_plugins (VObj props))) "virtual" VUndef w0
  = (Ok (VObj props),
     with_meta (traced [EvInvoke "P1" "resolveId" [VStr "virtual"; VUndef]])
       {["/v.js" := [("x", VNum 1)]]}).
Proof.
  apply (resolveId_object_answer isAbsolute normalize resolve cwd resolvePath
           (container (resolve_plugins
                         (VObj [("id", VStr "/v.js");
                                ("meta", VObj [("x", VNum 1)])])))
           "virtual" VUndef w0
           [("id", VStr "/v.js"); ("meta", VObj [("x", VNum 1)])]
           (traced [EvInvoke "P1" "resolveId" [VStr "virtual"; VUndef]])
           (VBool false)
           (traced [EvInvoke "P1" "resolveId" [VStr "virtual"; VUndef]])).
  - reflexivity.
  - reflexivity.
  - reflexivity.
Defined.

Lemma resolveDynamicImport_by_hook_result_witness :
  resolveDynamicImport isAbsolute normalize resolve cwd resolvePath
    (container (dynamic_plugins (VStr "./lazy.js"))) (Literal "./lazy")
    VUndef w0
  = (Ok (VObj [("id", VStr "./lazy.js")]),
     traced [EvInvoke "P1" "resolveDynamicImport" [VStr "./lazy"; VUndef]]).
Proof.
  apply (resolveDynamicImport_by_hook_result isAbsolute normalize resolve cwd
           resolvePath (container (dynamic_plugins (VStr "./lazy.js")))
           (Literal "./lazy") VUndef w0 (VStr "./lazy.js")
           (traced [EvInvoke "P1" "resolveDynamicImport"
                      [VStr "./lazy"; VUndef]])).
  reflexivity.
Defined.

Lemma transform_resets_transient_state_witness :
  transient_reset
    (snd (transform combine (container transform_plugins) "src" "/m.js" w0)).
Proof.
  eapply (transform_resets_transient_state combine
            (container transform_plugins) "src" "/m.js" w0).
  vm_compute. reflexivity.
Defined.

Lemma transform_failure_leaves_transient_state_witness :
  let r := transform combine (container failing_transform_plugins)
             "src" "/m.js" w0 in
  fst r = Throw (VStr "boom")
  /\ transient_set "src" "/m.js" (snd r)
  /\ List.filter is_combine (trace (snd r)) = [].
Proof.
  pose proof (transform_failure_leaves_transient_state combine
                (container failing_transform_plugins) "src" "/m.js" w0
                (VStr "boom")
                (snd (transform combine
                        (container failing_transform_plugins)
                        "src" "/m.js" w0))) as H.
  destruct H as (H1 & H2 & H3).
  - vm_compute. reflexivity.
  - cbv zeta. rewrite H1. cbn [fst snd]. rewrite H1 in H2, H3.
    cbn [fst snd] in H2, H3. auto.
Defined.

Lemma transform_fromResult_keeps_syntheticNamedExports_witness :
  syntheticNamedExports
    (snd (transform_fromResult (container []) "/m.js"
            (VObj [("code", VStr "two");
                   ("syntheticNamedExports", VStr "b")])
            (VObj []) w_named))
  = VStr "a".
Proof.
  apply (transform_fromResult_keeps_syntheticNamedExports (container [])
           "/m.js" _ (VObj []) w_named).
  discriminate.
Defined.

Lemma transform_fromResult_discards_empty_map_witness :
  let r := transform_fromResult (container []) "/m.js"
             (VObj [("code", VStr "two"); ("map", VObj [])]) (VObj []) w0 in
  fst r = Ok (VObj [("code", VStr "two"); ("id", VStr "/m.js");
                    ("map", VUndef)])
  /\ mapChain (snd r) = [chain_entry (VStr "two") VUndef].
Proof.
  apply (transform_fromResult_discards_empty_map (container []) "/m.js"
           [("code", VStr "two"); ("map", VObj [])] (VStr "two") (VObj [])
           (VObj []) w0).
  - reflexivity.
  - discriminate.
  - reflexivity.
  - reflexivity.
  - discriminate.
  - reflexivity.
Defined.

(** A plugin answering with minified code and a map: the chunk keeps its
    file name. *)
Lemma renderChunk_fromResult_frame_witness :
  let r := renderChunk_fromResult (X:=unit)
             (VObj [("code", VStr "minified");
                    ("map", VObj [("mappings", VStr "AAAA")])])
             (VObj [], chunk_info) w0 in
  snd r = w0
  /\ lookup_prop "fileName"
       (snd (match fst r with Ok a => a | Throw _ => (VUndef, []) end))
     = VStr "main.js".
Proof.
  cbv zeta.
  apply (renderChunk_fromResult_frame (X:=unit)
           (VObj [("code", VStr "minified");
                  ("map", VObj [("mappings", VStr "AAAA")])])
           (VObj [], chunk_info) w0 _ _ "fileName").
  - vm_compute. reflexivity.
  - discriminate.
  - discriminate.
Defined.

Lemma renderChunk_fromResult_merges_witness :
  let acc := (VUndef, [("fileName", VStr "main.js");
                       ("code", VStr "minified"); ("map", VNull)]) in
  fst acc = VUndef
  /\ lookup_prop "code" (snd acc) = VStr "minified"
  /\ lookup_prop "map" (snd acc) = VNull.
Proof.
  apply (renderChunk_fromResult_merges (X:=unit) (VStr EmptyString) (VObj [])
           [("fileName", VStr "main.js"); ("code", VStr "minified");
            ("map", VNull)] w0 _ w0).
  reflexivity.
Defined.

Lemma bundle_view_read_after_assignment_witness :
  BundleView.proxy_get
    (BundleView.proxy_set bundle0 "anything" (chunk "asset.css" "a"))
    "asset.css"
  = Ok (chunk "asset.css" "a")
  /\ BundleView.proxy_get
       (BundleView.proxy_set bundle0 "anything" (chunk "asset.css" "a"))
       "anything"
     = Ok VUndef.
Proof.
  split.
  - apply (bundle_view_read_after_assignment bundle0 "anything" "asset.css"
             (chunk "asset.css" "a")); reflexivity.
  - reflexivity.
Defined.

Lemma bundle_view_absent_assignment_witness :
  (exists e, BundleView.proxy_get
               (BundleView.proxy_set bundle0 "x.js" VUndef) "y.js"
             = Throw e)
  /\ exists e, BundleView.proxy_ownKeys
                 (BundleView.proxy_set bundle0 "x.js" VUndef) = Throw e.
Proof.
  apply (bundle_view_absent_assignment bundle0 "x.js" "y.js" VUndef);
    reflexivity.
Defined.

(** A third record under a new file name. *)
Lemma bundle_view_keys_witness :
  [VStr "main.js"; VStr "vendor.js"]
  = map (fun e => get e "fileName") bundle0
  /\ BundleView.valid_keys [VStr "main.js"; VStr "vendor.js"] = true
  /\ BundleView.view_ownKeys
       (BundleView.proxy_set bundle0 "k" (chunk "asset.css" "a"))
     = Ok [VStr "main.js"; VStr "vendor.js"; VStr "asset.css"].
Proof.
  exact (bundle_view_keys bundle0 "k" (chunk "asset.css" "a")
           [VStr "main.js"; VStr "vendor.js"] eq_refl eq_refl).
Defined.

(** A second record under the file name of the first: the keys can no
    longer be listed. *)
Example duplicate_file_name_keys :
  BundleView.view_ownKeys
    (BundleView.proxy_set bundle0 "main.js" (chunk "main.js" "new"))
  = Throw (error_obj "TypeError"
             "'ownKeys' on proxy: trap returned an invalid key list").
Proof. reflexivity. Qed.

Lemma es2cjs_without_imports_exports_witness :
  Es2cjs.es2cjs parse_plain buffer buffer_new buffer_overwrite
    buffer_appendRight buffer_toString plain_source None
  = Ok (Es2cjs.mkResult "let x = 1;" []).
Proof.
  apply (es2cjs_without_imports_exports parse_plain buffer buffer_new
           buffer_overwrite buffer_appendRight buffer_toString plain_source
           None [plain_node]).
  - reflexivity.
  - repeat constructor.
Defined.

(** [import $ from "jquery"] with the global [$] configured for
    [jquery]. *)
Lemma resolveImport_external_witness :
  exists g,
    Es2cjs.resolveImport buffer (Some jquery_options) empty_response
      jquery_import
    = Ok ("var _e" +:+ g +:+ " = window." +:+ g +:+ ";var $ = _e" +:+ g
          +:+ " && _e" +:+ g +:+ ".hasOwnProperty(" +:+ DQ +:+ "default"
          +:+ DQ +:+ ")? _e" +:+ g +:+ ".default : _e" +:+ g +:+ ";",
          "_e" +:+ g, empty_response)
    /\ g = "$".
Proof.
  destruct (resolveImport_external buffer jquery_options empty_response
              jquery_import "jquery" (Es2cjs.ImportDefaultSpecifier "$") []
              eq_refl eq_refl eq_refl) as (g & Hr & Hg & _).
  exists g. assert (Hgv : g = "$") by (apply Hg; [reflexivity|discriminate]).
  split; [|exact Hgv]. rewrite Hr. subst g. reflexivity.
Defined.

(** [import c from "constructor"] with no global configured: the global
    name is the text of [Object.prototype.constructor], not [c]. *)
Example inherited_global_name :
  let g := "function Object() { [native code] }" in
  Es2cjs.resolveImport buffer (Some constructor_options) empty_response
    constructor_import
  = Ok ("var _e" +:+ g +:+ " = window." +:+ g +:+ ";var c = _e" +:+ g
        +:+ " && _e" +:+ g +:+ ".hasOwnProperty(" +:+ DQ +:+ "default"
        +:+ DQ +:+ ")? _e" +:+ g +:+ ".default : _e" +:+ g +:+ ";",
        "_e" +:+ g, empty_response).
Proof. reflexivity. Qed.

Lemma resolveImport_side_effect_witness :
  Es2cjs.resolveImport buffer (Some jquery_options) empty_response
    jquery_side_effect
  = Ok (EmptyString, EmptyString, empty_response).
Proof.
  apply (resolveImport_side_effect buffer (Some jquery_options)
           empty_response jquery_side_effect "jquery" true); reflexivity.
Defined.

End MoreInstances.
